(** * AingDesk chat session store: [electron/service/chat.ts]

    A shallow embedding of [ChatService] and the properties of its
    conversation configs and turn logs.

    Conventions of the embedding.
    - A JavaScript string is a [string]; one character stands for one
      UTF-16 code unit, so [String.length] is [.length] and
      [String.substring] is [.substring].
    - A JavaScript number that the service computes with (a token count, a
      context length, a time stamp) is an integer and is a [Z].
    - The absent class [pub] (class/public) and the JavaScript built-ins
      [JSON.parse], [JSON.stringify] and [path.resolve] are parameters. *)

From Stdlib Require Import ZArith Lia Bool List Ascii String DecimalString.
From Stdlib Require Import Sorting.Sorted Sorting.Permutation.
From stdpp Require Import base option list strings gmap.

Local Open Scope Z_scope.
#[local] Set Warnings "-register-all".

(** ** Values read from and written to JSON documents *)

Inductive json : Type :=
| JNull
| JBool (b : bool)
| JNum (n : Z)
| JStr (s : string)
| JArr (items : list json)
| JObj (fields : list (string * json)).

(** [[]], the value [readJsonFile] falls back to. *)
Definition empty_array : json := JArr [].

(** ** Turn records *)

(** [export type ChatHistory]. *)
Module ChatHistory.
Record t : Type := mk {
  id : string;
  reasoning : string;
  role : string;
  content : string;
  images : list string;
  tool_calls : string;
  created_at : string;
  create_time : Z;
  stat : json;
  tokens : Z;
  search_result : list json;
  search_type : option string;
  search_query : option string
}.

(** [h.id = v] *)
Definition set_id (v : string) (h : t) : t :=
  mk v (reasoning h) (role h) (content h) (images h) (tool_calls h)
     (created_at h) (create_time h) (stat h) (tokens h) (search_result h)
     (search_type h) (search_query h).

(** [h.tokens = v] *)
Definition set_tokens (v : Z) (h : t) : t :=
  mk (id h) (reasoning h) (role h) (content h) (images h) (tool_calls h)
     (created_at h) (create_time h) (stat h) v (search_result h)
     (search_type h) (search_query h).

(** [h.content = v] *)
Definition set_content (v : string) (h : t) : t :=
  mk (id h) (reasoning h) (role h) v (images h) (tool_calls h)
     (created_at h) (create_time h) (stat h) (tokens h) (search_result h)
     (search_type h) (search_query h).
End ChatHistory.

(** [export type ChatContext]. *)
Module ChatContext.
Record t : Type := mk {
  role : string;
  content : string;
  images : list string;
  tool_calls : string
}.
End ChatContext.

(** An element of the array [build_chat_history] returns: either the
    projection [{ role, content }] of a stored entry, or the caller's
    [chatContext] object itself. *)
Inductive HistoryItem : Type :=
| Projected (role content : string)
| Current (chatContext : ChatContext.t).

Definition item_role (m : HistoryItem) : string :=
  match m with
  | Projected r _ => r
  | Current c => ChatContext.role c
  end.

Definition item_content (m : HistoryItem) : string :=
  match m with
  | Projected _ c => c
  | Current c => ChatContext.content c
  end.

(** ** JavaScript helpers *)

(** [s.length] *)
Definition str_length (s : string) : Z := Z.of_nat (String.length s).

(** Truthiness of a string: only the empty string is falsy. *)
Definition truthy (s : string) : bool := negb (String.eqb s "").

(** [Math.round(contextLength * 0.5)] for an integer [contextLength].
    [Math.round] rounds a half towards +infinity, so the result is
    [floor (contextLength / 2 + 1 / 2)], that is [floor ((contextLength + 1) / 2)]. *)
Definition Math_round_half (contextLength : Z) : Z := (contextLength + 1) / 2.

(** [l.findIndex(p)]; [None] stands for [-1]. *)
Fixpoint findIndex {A : Type} (p : A -> bool) (l : list A) : option nat :=
  match l with
  | [] => None
  | x :: rest => if p x then Some 0%nat else S <$> findIndex p rest
  end.

(** [(item) => item.id == id] *)
Definition has_id (i : string) (item : ChatHistory.t) : bool :=
  String.eqb (ChatHistory.id item) i.

(** ** The turn log of one conversation

    Each operation below is the body of the method of the same name, from
    the array [read_history(uuid)] returned (first argument) to the array
    handed to [save_history(uuid, ...)] (result). *)

(** The loop
    [while (totalTokens > max && list.length > 0) { first = list.shift(); totalTokens -= first.tokens }]
    of [save_chat_history]. *)
Fixpoint shift_while_tokens (totalTokens historyMaxContextLength : Z)
    (historyList : list ChatHistory.t) : list ChatHistory.t :=
  match historyList with
  | [] => []
  | firstHistory :: rest =>
      if totalTokens >? historyMaxContextLength
      then shift_while_tokens (totalTokens - ChatHistory.tokens firstHistory)
             historyMaxContextLength rest
      else historyList
  end.

(** The same loop in [build_chat_history], which subtracts
    [first.content.length]. *)
Fixpoint shift_while_content (totalTokens historyMaxContextLength : Z)
    (contextList : list ChatHistory.t) : list ChatHistory.t :=
  match contextList with
  | [] => []
  | firstHistory :: rest =>
      if totalTokens >? historyMaxContextLength
      then shift_while_content
             (totalTokens - str_length (ChatHistory.content firstHistory))
             historyMaxContextLength rest
      else contextList
  end.

(** Sum of [item.content.length] over stored entries. *)
Definition content_total (l : list ChatHistory.t) : Z :=
  fold_right (fun item acc => str_length (ChatHistory.content item) + acc) 0 l.

Section TurnLog.
(** [pub.lang]: the localisation of a message key. *)
Variable lang : string -> string.

(** The key whose localisation is the "unexpectedly interrupted" token. *)
Definition interrupted_key : string := "意外中断".

(** [save_chat_history(uuid, history, historyRes, contextLength, regenerate_id)].
    [new_id] is the value [pub.uuid()] returns; [regenerate_id = None] is
    [undefined]. *)
Definition save_chat_history (historyList : list ChatHistory.t)
    (new_id : string) (history historyRes : ChatHistory.t)
    (contextLength : Z) (regenerate_id : option string) : list ChatHistory.t :=
  let history := ChatHistory.set_id new_id history in
  let history :=
    ChatHistory.set_tokens
      (if truthy (ChatHistory.content history)
       then str_length (ChatHistory.content history) else 0) history in
  let totalTokens := ChatHistory.tokens history in
  let historyMaxContextLength := Math_round_half contextLength in
  let historyRes := ChatHistory.set_content (lang interrupted_key) historyRes in
  let historyList :=
    match regenerate_id with
    | Some rid =>
        if truthy rid then
          match findIndex (has_id rid) historyList with
          | Some index => take index historyList
          | None => historyList
          end
        else historyList ++ [history]
    | None => historyList ++ [history]
    end in
  let historyList := historyList ++ [historyRes] in
  shift_while_tokens totalTokens historyMaxContextLength historyList.

(** [build_chat_history(uuid, chatContext, contextLength)]; the result is
    the returned array. *)
Definition build_chat_history (contextList : list ChatHistory.t)
    (chatContext : ChatContext.t) (contextLength : Z) : list HistoryItem :=
  let totalTokens :=
    fold_left (fun acc item => acc + str_length (ChatHistory.content item))
              contextList (str_length (ChatContext.content chatContext)) in
  let historyMaxContextLength := Math_round_half contextLength in
  let contextList :=
    shift_while_content totalTokens historyMaxContextLength contextList in
  let historyList :=
    map (fun item => Projected (ChatHistory.role item) (ChatHistory.content item))
        contextList in
  historyList ++ [Current chatContext].
End TurnLog.

(** [set_chat_history(uuid, id, history)].  When no entry has the id,
    [findIndex] is [-1] and [historyList[-1] = history] sets a property that
    is not an array element: [JSON.stringify] writes the array unchanged. *)
Definition set_chat_history (historyList : list ChatHistory.t) (i : string)
    (history : ChatHistory.t) : list ChatHistory.t :=
  match findIndex (has_id i) historyList with
  | Some index => <[index := history]> historyList
  | None => historyList
  end.

(** [delete_chat_history(uuid, id)] *)
Definition delete_chat_history (historyList : list ChatHistory.t) (i : string)
    : list ChatHistory.t :=
  List.filter (fun item => negb (String.eqb (ChatHistory.id item) i)) historyList.

(** [get_last_chat_history(uuid)]; [None] is the empty object [{}]. *)
Definition get_last_chat_history (historyList : list ChatHistory.t)
    : option ChatHistory.t :=
  last historyList.

(** ** The object store and the conversation configs *)

(** Modelled from the spec: the files under the data directory, path to
    text.  The class [pub] (class/public) is absent from the sources;
    section 4.A gives the object store as [read(path)] and
    [write(path, value)] over whole documents, with no cross-file
    transactions. *)
Abbreviation files := (gmap string string).

(** Modelled from the spec: [pub.file_exists(filePath)], whether the store
    holds a file at the path. *)
Definition file_exists (fs : files) (filePath : string) : bool :=
  bool_decide (is_Some (fs !! filePath)).

(** Modelled from the spec: [pub.read_file(filePath)], the text of the
    file. *)
Definition read_file (fs : files) (filePath : string) : string :=
  default "" (fs !! filePath).

(** Modelled from the spec: [pub.write_file(filePath, content)], which
    replaces the whole file. *)
Definition write_file (fs : files) (filePath content : string) : files :=
  <[filePath := content]> fs.

(** [obj[key]] on the properties of an object; [None] is [undefined]. *)
Fixpoint obj_get (key : string) (fields : list (string * json)) : option json :=
  match fields with
  | [] => None
  | (k, v) :: rest => if String.eqb k key then Some v else obj_get key rest
  end.

(** [v[key]] for a parsed document. *)
Definition get_prop (key : string) (v : json) : option json :=
  match v with
  | JObj fields => obj_get key fields
  | _ => None
  end.

(** [Object.keys(v).length]; [None] is the TypeError that [Object.keys(null)]
    throws. *)
Definition Object_keys_length (v : json) : option nat :=
  match v with
  | JNull => None
  | JBool _ | JNum _ => Some 0%nat
  | JStr s => Some (String.length s)
  | JArr items => Some (length items)
  | JObj fields => Some (length fields)
  end.

(** [cfg.create_time] when it is a number. *)
Definition create_time_of (cfg : json) : option Z :=
  match get_prop "create_time" cfg with
  | Some (JNum n) => Some n
  | _ => None
  end.

(** The key [contextList.sort((a, b) => b.create_time - a.create_time)]
    compares; 0 where [create_time_of] is [None] (never used there). *)
Definition sort_key (cfg : json) : Z := default 0 (create_time_of cfg).

(** [Array.prototype.sort] is stable and, for a consistent comparator, its
    result is the stable sorted arrangement; insertion from the right
    computes it.  [a] stands before every element of [l] in the array, and
    moves behind [b] exactly when the comparator [b.create_time - a.create_time]
    is positive. *)
Fixpoint insert_desc (a : json) (l : list json) : list json :=
  match l with
  | [] => [a]
  | b :: rest =>
      if sort_key b - sort_key a >? 0 then b :: insert_desc a rest else a :: l
  end.

Definition sort_desc (l : list json) : list json := fold_right insert_desc [] l.

(** What the service takes from its host: the JavaScript built-ins and the
    absent class [pub]. *)
Class Host : Type := {
  (** [JSON.parse]; [None] is a thrown SyntaxError. *)
  JSON_parse : string -> option json;
  (** [JSON.stringify] *)
  JSON_stringify : json -> string;
  (** [pub.get_context_path] *)
  get_context_path : string -> string;
  (** [path.resolve] of a directory and a file name. *)
  path_resolve : string -> string -> string;
  (** [pub.readdir]: the sub-directories of a directory. *)
  readdir : string -> list string;
  (** [pub.stat(path)]: [stat.birthtime.getTime()] in milliseconds, [None]
      when [pub.stat] returns a falsy value. *)
  stat_birthtime : string -> option Z
}.

Section ObjectStore.
Context `{Host}.

Definition getContextPath (uuid : string) : string := get_context_path uuid.

Definition getConfigFilePath (uuid : string) : string :=
  let contextPath := getContextPath uuid in
  path_resolve contextPath "config.json".

Definition getHistoryFilePath (uuid : string) : string :=
  let contextPath := getContextPath uuid in
  path_resolve contextPath "history.json".

Definition readJsonFile (fs : files) (filePath : string) : json :=
  if negb (file_exists fs filePath) then empty_array
  else
    let fileContent := read_file fs filePath in
    if (String.length fileContent =? 0)%nat then empty_array
    else
      match JSON_parse fileContent with
      | Some v => v
      | None => empty_array
      end.

(** The [catch] of [saveJsonFile] has nothing to catch here: writing into
    the modelled store does not fail. *)
Definition saveJsonFile (fs : files) (filePath : string) (data : json) : files :=
  write_file fs filePath (JSON_stringify data).

(** [create_chat(model, parameters, title)]; [uuid] is the value of
    [pub.uuid()] and [now] the value of [pub.time()].  Returns the new
    store and the returned config. *)
Definition create_chat (fs : files) (uuid : string) (now : Z)
    (model parameters title : string) : files * json :=
  let title :=
    if (18 <? String.length title)%nat then String.substring 0 18 title
    else title in
  let contextConfig :=
    JObj [("model", JStr model);
          ("title", JStr title);
          ("parameters", JStr parameters);
          ("contextPath", JStr (getContextPath uuid));
          ("context_id", JStr uuid);
          ("create_time", JNum now)] in
  (saveJsonFile fs (getConfigFilePath uuid) contextConfig, contextConfig).

Definition read_chat (fs : files) (uuid : string) : json :=
  readJsonFile fs (getConfigFilePath uuid).

Definition save_chat (fs : files) (uuid : string) (chatConfig : json) : files :=
  saveJsonFile fs (getConfigFilePath uuid) chatConfig.

Definition read_history (fs : files) (uuid : string) : json :=
  readJsonFile fs (getHistoryFilePath uuid).

Definition save_history (fs : files) (uuid : string) (history : json) : files :=
  saveJsonFile fs (getHistoryFilePath uuid) history.

(** One round of the loop of [get_chat_list] over [dir]:
    [Some None] is [continue], [Some (Some cfg)] is [contextList.push(cfg)].
    [None] is a TypeError ([Object.keys(null)], or the assignment of
    [create_time] to a string in strict mode) or a document outside this
    model (a non-empty array, which would receive a [create_time]
    property). *)
Definition chat_list_entry (fs : files) (dir : string) : option (option json) :=
  let configFilePath := path_resolve dir "config.json" in
  let contextConfigObj := readJsonFile fs configFilePath in
  match Object_keys_length contextConfigObj with
  | None => None
  | Some 0%nat => Some None
  | Some _ =>
      match contextConfigObj with
      | JObj fields =>
          match obj_get "create_time" fields with
          | None =>
              let create_time :=
                match stat_birthtime configFilePath with
                | Some birthtime => birthtime / 1000
                | None => 0
                end in
              Some (Some (JObj (fields ++ [("create_time", JNum create_time)])))
          | Some _ => Some (Some contextConfigObj)
          end
      | _ => None
      end
  end.

(** The [for] loop of [get_chat_list]. *)
Fixpoint collect_chat_list (fs : files) (contextDirList : list string)
    : option (list json) :=
  match contextDirList with
  | [] => Some []
  | dir :: rest =>
      match chat_list_entry fs dir with
      | None => None
      | Some entry =>
          match collect_chat_list fs rest with
          | None => None
          | Some contextList =>
              Some (match entry with
                    | Some cfg => cfg :: contextList
                    | None => contextList
                    end)
          end
      end
  end.

(** [get_chat_list()].  [None] as for [chat_list_entry], and when some
    [create_time] compared by the sort is not a number. *)
Definition get_chat_list (fs : files) : option (list json) :=
  let contextPath := getContextPath "" in
  let contextDirList := readdir contextPath in
  match collect_chat_list fs contextDirList with
  | None => None
  | Some contextList =>
      if forallb (fun cfg => bool_decide (is_Some (create_time_of cfg))) contextList
      then Some (sort_desc contextList)
      else None
  end.
End ObjectStore.

(** ** A small JSON codec

    An instance of [JSON_parse] and [JSON_stringify] for compact JSON texts
    (no white space; integers; strings with the escapes of the quote and the
    backslash), used to run the service on concrete files. *)
Module MiniJSON.
Definition dquote : ascii := ascii_of_nat 34.
Definition backslash : ascii := ascii_of_nat 92.

Fixpoint escape (s : string) : string :=
  match s with
  | EmptyString => EmptyString
  | String c rest =>
      if (Ascii.eqb c dquote || Ascii.eqb c backslash)%bool
      then String backslash (String c (escape rest))
      else String c (escape rest)
  end.

Definition quote (s : string) : string :=
  String dquote (escape s +:+ String dquote EmptyString).

Definition number (n : Z) : string := NilZero.string_of_int (Z.to_int n).

Fixpoint stringify (v : json) : string :=
  match v with
  | JNull => "null"
  | JBool true => "true"
  | JBool false => "false"
  | JNum n => number n
  | JStr s => quote s
  | JArr items =>
      "[" +:+ (fix go (l : list json) : string :=
                match l with
                | [] => ""
                | x :: rest =>
                    stringify x +:+ match rest with [] => "" | _ => "," +:+ go rest end
                end) items +:+ "]"
  | JObj fields =>
      "{" +:+ (fix go (l : list (string * json)) : string :=
                match l with
                | [] => ""
                | (k, x) :: rest =>
                    quote k +:+ ":" +:+ stringify x
                      +:+ match rest with [] => "" | _ => "," +:+ go rest end
                end) fields +:+ "}"
  end.

(** The text after an opening quote, up to the closing one. *)
Fixpoint read_string (s : string) : option (string * string) :=
  match s with
  | EmptyString => None
  | String c rest =>
      if Ascii.eqb c dquote then Some (EmptyString, rest)
      else if Ascii.eqb c backslash then
        match rest with
        | String e rest' =>
            if (Ascii.eqb e dquote || Ascii.eqb e backslash)%bool then
              match read_string rest' with
              | Some (body, r) => Some (String e body, r)
              | None => None
              end
            else None
        | EmptyString => None
        end
      else
        match read_string rest with
        | Some (body, r) => Some (String c body, r)
        | None => None
        end
  end.

Definition is_digit (c : ascii) : bool :=
  ((48 <=? nat_of_ascii c) && (nat_of_ascii c <=? 57))%nat.

(** The value of a run of digits read after [acc], with the count of digits. *)
Fixpoint read_digits (acc : Z) (count : nat) (s : string) : Z * nat * string :=
  match s with
  | String c rest =>
      if is_digit c
      then read_digits (acc * 10 + Z.of_nat (nat_of_ascii c - 48)) (S count) rest
      else (acc, count, s)
  | EmptyString => (acc, count, s)
  end.

Fixpoint strip_prefix (p s : string) : option string :=
  match p, s with
  | EmptyString, _ => Some s
  | String a p', String b s' => if Ascii.eqb a b then strip_prefix p' s' else None
  | String _ _, EmptyString => None
  end.

Definition read_number (s : string) : option (json * string) :=
  let '(negative, body) :=
    match strip_prefix "-" s with
    | Some r => (true, r)
    | None => (false, s)
    end in
  match read_digits 0 0 body with
  | (_, O, _) => None
  | (n, S _, r) => Some (JNum (if negative then - n else n), r)
  end.

Fixpoint parse_value (fuel : nat) (s : string) : option (json * string) :=
  match fuel with
  | O => None
  | S fuel =>
      match s with
      | EmptyString => None
      | String c rest =>
          if Ascii.eqb c "n" then (fun r => (JNull, r)) <$> strip_prefix "ull" rest
          else if Ascii.eqb c "t" then (fun r => (JBool true, r)) <$> strip_prefix "rue" rest
          else if Ascii.eqb c "f" then (fun r => (JBool false, r)) <$> strip_prefix "alse" rest
          else if Ascii.eqb c dquote then
            (fun '(body, r) => (JStr body, r)) <$> read_string rest
          else if Ascii.eqb c "[" then
            match strip_prefix "]" rest with
            | Some r => Some (JArr [], r)
            | None => (fun '(items, r) => (JArr items, r)) <$> parse_items fuel rest
            end
          else if Ascii.eqb c "{" then
            match strip_prefix "}" rest with
            | Some r => Some (JObj [], r)
            | None => (fun '(fields, r) => (JObj fields, r)) <$> parse_fields fuel rest
            end
          else read_number s
      end
  end
with parse_items (fuel : nat) (s : string) : option (list json * string) :=
  match fuel with
  | O => None
  | S fuel =>
      match parse_value fuel s with
      | Some (v, String sep r) =>
          if Ascii.eqb sep "]" then Some ([v], r)
          else if Ascii.eqb sep "," then
            (fun '(items, r') => (v :: items, r')) <$> parse_items fuel r
          else None
      | _ => None
      end
  end
with parse_fields (fuel : nat) (s : string)
    : option (list (string * json) * string) :=
  match fuel with
  | O => None
  | S fuel =>
      match s with
      | String q s1 =>
          if Ascii.eqb q dquote then
            match read_string s1 with
            | Some (k, String colon s2) =>
                if Ascii.eqb colon ":" then
                  match parse_value fuel s2 with
                  | Some (v, String sep r) =>
                      if Ascii.eqb sep "}" then Some ([(k, v)], r)
                      else if Ascii.eqb sep "," then
                        (fun '(fields, r') => ((k, v) :: fields, r'))
                          <$> parse_fields fuel r
                      else None
                  | _ => None
                  end
                else None
            | _ => None
            end
          else None
      | EmptyString => None
      end
  end.

(** A text is a document when one value spans it entirely. *)
Definition parse (s : string) : option json :=
  match parse_value (2 * String.length s + 2) s with
  | Some (v, EmptyString) => Some v
  | _ => None
  end.
End MiniJSON.

(** ** Turn parity and reachable turn logs *)

(** An even number of entries whose roles alternate [user], [assistant]
    from index 0. *)
Fixpoint turn_parity (l : list ChatHistory.t) : bool :=
  match l with
  | [] => true
  | u :: a :: rest =>
      String.eqb (ChatHistory.role u) "user"
      && String.eqb (ChatHistory.role a) "assistant"
      && turn_parity rest
  | _ => false
  end.

(** The turn logs the store can hold: from the empty log (no history file),
    by the operations that write the history document. *)
Inductive reachable (lang : string -> string) : list ChatHistory.t -> Prop :=
| reachable_empty : reachable lang []
| reachable_save H new_id history historyRes contextLength regenerate_id :
    reachable lang H ->
    reachable lang
      (save_chat_history lang H new_id history historyRes contextLength regenerate_id)
| reachable_set H i history :
    reachable lang H -> reachable lang (set_chat_history H i history)
| reachable_delete H i :
    reachable lang H -> reachable lang (delete_chat_history H i).

(** Sum of the [content.length] of an assembled context. *)
Definition content_sum (l : list HistoryItem) : Z :=
  fold_right (fun m acc => str_length (item_content m) + acc) 0 l.

(** [{ role, content }] of a stored entry. *)
Definition project (item : ChatHistory.t) : HistoryItem :=
  Projected (ChatHistory.role item) (ChatHistory.content item).

(** The entries [save_chat_history] writes for a turn: the user entry with
    its fresh id and token count, the assistant entry with the interrupted
    token as content. *)
Definition saved_user (new_id : string) (history : ChatHistory.t) : ChatHistory.t :=
  ChatHistory.set_tokens (str_length (ChatHistory.content history))
    (ChatHistory.set_id new_id history).

Definition saved_assistant (lang : string -> string) (historyRes : ChatHistory.t)
    : ChatHistory.t :=
  ChatHistory.set_content (lang interrupted_key) historyRes.

(** ** Documents of the object store *)

Section Documents.
Context `{Host}.

(** A backing file that is missing, empty, or not a JSON text. *)
Definition unreadable (fs : files) (filePath : string) : Prop :=
  fs !! filePath = None
  \/ fs !! filePath = Some ""
  \/ exists text, fs !! filePath = Some text /\ JSON_parse text = None.

(** A config document is non-empty when it has a key. *)
Definition non_empty (cfg : json) : bool :=
  match Object_keys_length cfg with
  | Some (S _) => true
  | _ => false
  end.

(** The documents a config file holds in this model: the empty fallback
    (a value without keys), or an object whose [create_time], when it has
    one, is a number. *)
Definition config_document (cfg : json) : bool :=
  match cfg with
  | JNull => false
  | JObj fields =>
      match obj_get "create_time" fields with
      | None | Some (JNum _) => true
      | Some _ => false
      end
  | _ => negb (non_empty cfg)
  end.

(** The creation time given to a config without one: the birth time of
    its file in whole seconds, 0 when the file cannot be stat'ed. *)
Definition file_create_time (configFilePath : string) : Z :=
  match stat_birthtime configFilePath with
  | Some birthtime => birthtime / 1000
  | None => 0
  end.

(** A config with its creation time filled in when it lacks one. *)
Definition with_create_time (configFilePath : string) (cfg : json) : json :=
  match cfg with
  | JObj fields =>
      match obj_get "create_time" fields with
      | Some _ => cfg
      | None =>
          JObj (fields ++ [("create_time", JNum (file_create_time configFilePath))])
      end
  | _ => cfg
  end.

(** The conversations to list, in directory order: the non-empty config
    documents, each with its creation time. *)
Definition listed_configs (fs : files) (contextDirList : list string) : list json :=
  map (fun dir =>
         with_create_time (path_resolve dir "config.json")
           (readJsonFile fs (path_resolve dir "config.json")))
      (List.filter
         (fun dir => non_empty (readJsonFile fs (path_resolve dir "config.json")))
         contextDirList).
End Documents.

(** Descending order of [create_time]. *)
Definition create_time_ge (a b : json) : Prop := sort_key b <= sort_key a.

(** ** Sample data *)

Module Sample.
(** An entry with the given id, role and content, as the chat engine
    builds one before a save: no attachments, token count not yet set. *)
Definition entry (i r c : string) : ChatHistory.t :=
  ChatHistory.mk i "" r c [] "" "" 0 (JObj []) 0 [] None None.

(** A stored entry: token count as [save_chat_history] sets it. *)
Definition stored (i r c : string) : ChatHistory.t :=
  ChatHistory.set_tokens (str_length c) (entry i r c).

Definition lang (key : string) : string := "<INTERRUPTED>".

Definition context_path (uuid : string) : string := "/data/context/" +:+ uuid.
Definition resolve (dir name : string) : string := dir +:+ "/" +:+ name.

(** Three conversation directories: [c1] created at 100, [c2] without
    creation time (file born at 250999 ms), [c3] with a truncated config;
    [c4] has no config file. *)
Definition dirs : list string :=
  ["/data/context/c1"; "/data/context/c2"; "/data/context/c3"; "/data/context/c4"].

Definition host : Host := {|
  JSON_parse := MiniJSON.parse;
  JSON_stringify := MiniJSON.stringify;
  get_context_path := context_path;
  path_resolve := resolve;
  readdir := fun _ => dirs;
  stat_birthtime := fun p =>
    if String.eqb p "/data/context/c2/config.json" then Some 250999 else None
|}.

Definition disk : files :=
  <["/data/context/c1/config.json" :=
      MiniJSON.stringify (JObj [("title", JStr "one"); ("create_time", JNum 100)])]>
  (<["/data/context/c2/config.json" :=
      MiniJSON.stringify (JObj [("title", JStr "two")])]>
  (<["/data/context/c3/config.json" := "{"]>
  (<["/data/context/c3/history.json" := ""]> ∅))).

(** The turn of scenario 2: user "hi", assistant "hello". *)
Definition hi_hello : list ChatHistory.t :=
  [stored "u1" "user" "hi"; stored "a1" "assistant" "hello"].
End Sample.

(** ** Updating a conversation config *)

(** [obj[key] = v] on the properties of an object: an existing property
    keeps its place and takes the value, a new one goes last. *)
Fixpoint obj_set (key : string) (v : json) (fields : list (string * json))
    : list (string * json) :=
  match fields with
  | [] => [(key, v)]
  | (k, w) :: rest =>
      if String.eqb k key then (k, v) :: rest else (k, w) :: obj_set key v rest
  end.

(** [target[key] = v] for a named key, as [JSON.stringify] later writes the
    target.  A named property set on an array is not an element and is not
    written; on a primitive the assignment throws a TypeError in strict
    mode (class bodies are strict), which is [None]. *)
Definition assign_prop (key : string) (v : json) (target : json) : option json :=
  match target with
  | JObj fields => Some (JObj (obj_set key v fields))
  | JArr items => Some (JArr items)
  | JNull | JBool _ | JNum _ | JStr _ => None
  end.

Section ConfigUpdates.
Context `{Host}.

(** [update_chat_model(uuid, model, parameters)]: the new store and the
    returned boolean; [None] is a thrown TypeError. *)
Definition update_chat_model (fs : files) (uuid model parameters : string)
    : option (files * bool) :=
  let contextConfigObj := readJsonFile fs (getConfigFilePath uuid) in
  match Object_keys_length contextConfigObj with
  | None => None
  | Some 0%nat => Some (fs, false)
  | Some _ =>
      match assign_prop "model" (JStr model) contextConfigObj with
      | None => None
      | Some contextConfigObj =>
          match assign_prop "parameters" (JStr parameters) contextConfigObj with
          | None => None
          | Some contextConfigObj =>
              Some (saveJsonFile fs (getConfigFilePath uuid) contextConfigObj, true)
          end
      end
  end.

(** [update_chat_title(uuid, title)] *)
Definition update_chat_title (fs : files) (uuid title : string)
    : option (files * bool) :=
  let contextConfigObj := read_chat fs uuid in
  match Object_keys_length contextConfigObj with
  | None => None
  | Some 0%nat => Some (fs, false)
  | Some _ =>
      match assign_prop "title" (JStr title) contextConfigObj with
      | None => None
      | Some contextConfigObj => Some (save_chat fs uuid contextConfigObj, true)
      end
  end.

(** [get_chat_history(uuid)] *)
Definition get_chat_history (fs : files) (uuid : string) : json :=
  read_history fs uuid.
End ConfigUpdates.

(** ** The trimming of a saved turn *)

(** Sum of [item.tokens] over entries. *)
Definition tokens_total (l : list ChatHistory.t) : Z :=
  fold_right (fun item acc => ChatHistory.tokens item + acc) 0 l.

(** The list [save_chat_history] has built when its trimming loop starts. *)
Definition save_candidates (lang : string -> string) (historyList : list ChatHistory.t)
    (new_id : string) (history historyRes : ChatHistory.t)
    (regenerate_id : option string) : list ChatHistory.t :=
  match regenerate_id with
  | Some rid =>
      if truthy rid then
        match findIndex (has_id rid) historyList with
        | Some index => take index historyList
        | None => historyList
        end
      else historyList ++ [saved_user new_id history]
  | None => historyList ++ [saved_user new_id history]
  end ++ [saved_assistant lang historyRes].

(** ** An aborted stream *)



(** A pasted message of 2064 characters, longer than half a context of
    4096. *)
Module Pasted.

End Pasted.

(** ** The conversation view of the front end *)

(** The key of a [ChatInfo] map entry (a [MultipeQuestionDto]). *)
Module Question.
Record t : Type := mk {
  content : string;
  files : list string;
  images : list string
}.
End Question.

(** The value of a [ChatInfo] map entry. *)
Module Answer.
Record t : Type := mk {
  content : string;
  stat : json;
  search_result : list json;
  id : string
}.
End Answer.

(** [generateObject(arr)] of the front-end controller, on the array
    [get_chat_info] serves.  Each key is a fresh object, so the [Map] keeps
    one entry per round, in order: a list of pairs.  [ChatHistory] declares
    no [doc_files], so [arr[i].doc_files] is [undefined] and [files] is
    [[]]; [images] is an array, which is truthy.  In the last round of an
    array of odd length [arr[i + 1]] is [undefined] and [arr[i + 1].stat]
    throws a TypeError: [None]. *)
Fixpoint generateObject (arr : list ChatHistory.t)
    : option (list (Question.t * Answer.t)) :=
  match arr with
  | [] => Some []
  | [_] => None
  | question :: answer :: rest =>
      let key :=
        Question.mk (ChatHistory.content question) [] (ChatHistory.images question) in
      let value := ChatHistory.reasoning answer +:+ ChatHistory.content answer in
      match generateObject rest with
      | Some result =>
          Some ((key,
                 Answer.mk value (ChatHistory.stat answer)
                   (ChatHistory.search_result answer) (ChatHistory.id answer))
                :: result)
      | None => None
      end
  end.

(** ** More sample data *)

Module Fixture.
(** A conversation config as [create_chat] writes one. *)
Definition config : json :=
  JObj [("model", JStr "llama"); ("title", JStr "first words");
        ("parameters", JStr "7b"); ("contextPath", JStr "/data/context/c1");
        ("context_id", JStr "c1"); ("create_time", JNum 100)].

(** A store with the config of conversation [c1] and a config file that
    holds the JSON text [null]. *)
Definition disk : files :=
  <["/data/context/c1/config.json" := MiniJSON.stringify config]>
  (<["/data/context/c2/config.json" := "null"]> ∅).

(** Two turns with distinct ids and their token counts. *)
Definition two_turns : list ChatHistory.t :=
  [Sample.stored "u1" "user" "hi"; Sample.stored "a1" "assistant" "hello";
   Sample.stored "u2" "user" "more"; Sample.stored "a2" "assistant" "sure"].
End Fixture.

(** * Properties *)

(** ** Helper lemmas on lists and the trimming loops *)

Lemma str_length_nonneg s : 0 <= str_length s.
Proof. unfold str_length. lia. Qed.

Lemma truthy_length s :
  (if truthy s then str_length s else 0) = str_length s.
Proof. destruct s; reflexivity. Qed.

Lemma Math_round_half_bounds n :
  n <= 2 * Math_round_half n <= n + 1.
Proof.
  unfold Math_round_half.
  pose proof (Z.div_mod (n + 1) 2 ltac:(lia)).
  pose proof (Z.mod_pos_bound (n + 1) 2 ltac:(lia)). lia.
Qed.

Lemma shift_while_tokens_within total hmax l :
  total <= hmax -> shift_while_tokens total hmax l = l.
Proof.
  intros Hle. destruct l as [|x l]; simpl; [reflexivity|].
  destruct (Z.gtb_spec total hmax); [lia | reflexivity].
Qed.

Lemma shift_while_tokens_drop total hmax l :
  exists k, shift_while_tokens total hmax l = drop k l.
Proof.
  revert total. induction l as [|x l IH]; intros total; simpl.
  - exists 0%nat. reflexivity.
  - destruct (total >? hmax).
    + destruct (IH (total - ChatHistory.tokens x)) as [k Hk].
      exists (S k). exact Hk.
    + exists 0%nat. reflexivity.
Qed.

Lemma findIndex_first (l pre post : list ChatHistory.t) x X :
  l = pre ++ x :: post ->
  ChatHistory.id x = X ->
  Forall (fun e => ChatHistory.id e <> X) pre ->
  findIndex (has_id X) l = Some (length pre).
Proof.
  intros -> Hx Hpre. induction Hpre as [|e pre He _ IH]; simpl.
  - unfold has_id. rewrite Hx, String.eqb_refl. reflexivity.
  - unfold has_id at 1. apply String.eqb_neq in He. rewrite He.
    rewrite IH. reflexivity.
Qed.

Lemma findIndex_Some_lt {A} (p : A -> bool) l i :
  findIndex p l = Some i -> (i < length l)%nat.
Proof.
  revert i. induction l as [|x l IH]; intros i; simpl; [discriminate|].
  destruct (p x); [intros [= <-]; lia|].
  destruct (findIndex p l) as [j|]; simpl; [|discriminate].
  intros [= <-]. specialize (IH j eq_refl). lia.
Qed.

Lemma saved_user_eq new_id history :
  ChatHistory.set_tokens
    (if truthy (ChatHistory.content (ChatHistory.set_id new_id history))
     then str_length (ChatHistory.content (ChatHistory.set_id new_id history))
     else 0) (ChatHistory.set_id new_id history) = saved_user new_id history.
Proof. unfold saved_user. rewrite truthy_length. reflexivity. Qed.

(** [save_chat_history] in terms of the list it trims. *)
Lemma save_chat_history_unfold lang H new_id history historyRes n rid :
  save_chat_history lang H new_id history historyRes n rid =
  shift_while_tokens (str_length (ChatHistory.content history)) (Math_round_half n)
    (match rid with
     | Some r =>
         if truthy r then
           match findIndex (has_id r) H with
           | Some index => take index H
           | None => H
           end
         else H ++ [saved_user new_id history]
     | None => H ++ [saved_user new_id history]
     end ++ [saved_assistant lang historyRes]).
Proof.
  unfold save_chat_history. rewrite saved_user_eq. reflexivity.
Qed.

(** ** Saving a turn *)

Lemma last_snoc_drop {A} (l : list A) (x : A) k :
  drop k (l ++ [x]) = [] \/ last (drop k (l ++ [x])) = Some x.
Proof.
  destruct (Nat.le_gt_cases k (length l)) as [Hk|Hk].
  - right. rewrite drop_app_le by exact Hk. apply last_snoc.
  - left. apply drop_ge. rewrite length_app. simpl. lia.
Qed.

(** C1, as the code has it.  When the entry with id [X] is at [pre ++ x :: post]
    (first entry with that id), a save with [regenerate_id = X] writes a
    suffix of [pre ++ [assistant]]: the entries before [x] and the single
    assistant entry, the passed user entry not being appended.  When the
    new user content is within the budget [Math.round(contextLength * 0.5)],
    nothing is trimmed and the result is exactly [pre ++ [assistant]]. *)
Theorem save_chat_history_regenerate
    lang (pre post : list ChatHistory.t) x new_id history historyRes contextLength X :
  truthy X = true ->
  ChatHistory.id x = X ->
  Forall (fun e => ChatHistory.id e <> X) pre ->
  let out := save_chat_history lang (pre ++ x :: post) new_id history historyRes
               contextLength (Some X) in
  (exists k, out = drop k (pre ++ [saved_assistant lang historyRes])) /\
  (str_length (ChatHistory.content history) <= Math_round_half contextLength ->
   out = pre ++ [saved_assistant lang historyRes]).
Proof.
  intros HX Hx Hpre out. subst out.
  rewrite save_chat_history_unfold, HX.
  rewrite (findIndex_first _ pre post x X eq_refl Hx Hpre).
  rewrite take_app_length. split.
  - apply shift_while_tokens_drop.
  - intros Hle. apply shift_while_tokens_within. exact Hle.
Qed.

Lemma save_chat_history_regenerate_witness :
  save_chat_history Sample.lang Sample.hi_hello "u2"
    (Sample.entry "" "user" "hi") (Sample.entry "a2" "assistant" "") 4096 (Some "a1")
  = [Sample.stored "u1" "user" "hi";
     saved_assistant Sample.lang (Sample.entry "a2" "assistant" "")].
Proof.
  apply (save_chat_history_regenerate Sample.lang
           [Sample.stored "u1" "user" "hi"] [] (Sample.stored "a1" "assistant" "hello")
           "u2" (Sample.entry "" "user" "hi") (Sample.entry "a2" "assistant" "")
           4096 "a1").
  - reflexivity.
  - reflexivity.
  - repeat constructor. simpl. discriminate.
  - vm_compute. discriminate.
Defined.

(** C1 fails as stated: regenerating on the assistant id of the turn
    (hi, hello) leaves the old user entry and one new assistant entry, two
    entries in all; the entries before [a1] followed by a fresh pair would
    be three. *)
Lemma save_chat_history_regenerate_counterexample :
  let out := save_chat_history Sample.lang Sample.hi_hello "u2"
               (Sample.entry "" "user" "hi") (Sample.entry "a2" "assistant" "")
               4096 (Some "a1") in
  map ChatHistory.id out = ["u1"; "a2"] /\
  ~ (exists user assistant,
        out = [Sample.stored "u1" "user" "hi"] ++ [user; assistant]).
Proof.
  split; [reflexivity|].
  intros (u & a & Heq). apply (f_equal (@length _)) in Heq.
  vm_compute in Heq. discriminate.
Qed.

(** X20.  The placeholder of a save.  Whatever content the passed assistant
    entry carries, the assistant entry [save_chat_history] writes has the
    localized token alone as content, and it is the last entry of whatever
    is written.  Without [regenerate_id] and with the user content within
    the budget, the stored log is extended by exactly the pair (user,
    assistant). *)
Theorem save_chat_history_interrupted
    lang (H : list ChatHistory.t) new_id history historyRes contextLength regenerate_id :
  let out := save_chat_history lang H new_id history historyRes contextLength
               regenerate_id in
  ChatHistory.content (saved_assistant lang historyRes) = lang interrupted_key /\
  (out = [] \/ last out = Some (saved_assistant lang historyRes)) /\
  (regenerate_id = None ->
   str_length (ChatHistory.content history) <= Math_round_half contextLength ->
   out = H ++ [saved_user new_id history; saved_assistant lang historyRes]).
Proof.
  intros out. subst out. rewrite save_chat_history_unfold.
  split; [reflexivity|]. split.
  - match goal with
    | |- context [shift_while_tokens ?t ?m (?l ++ [?a])] =>
        destruct (shift_while_tokens_drop t m (l ++ [a])) as [k ->];
        apply last_snoc_drop
    end.
  - intros -> Hle. rewrite shift_while_tokens_within by exact Hle.
    rewrite <- app_assoc. reflexivity.
Qed.

Lemma save_chat_history_interrupted_witness :
  save_chat_history Sample.lang Sample.hi_hello "u2"
    (Sample.entry "" "user" "more") (Sample.entry "a2" "assistant" "he") 4096 None
  = Sample.hi_hello ++ [saved_user "u2" (Sample.entry "" "user" "more");
                        saved_assistant Sample.lang (Sample.entry "a2" "assistant" "he")].
Proof.
  apply (save_chat_history_interrupted Sample.lang Sample.hi_hello "u2"
           (Sample.entry "" "user" "more") (Sample.entry "a2" "assistant" "he")
           4096 None).
  - reflexivity.
  - vm_compute. discriminate.
Defined.

(** C7, as the code has it.  Every entry written by [save_chat_history] is
    a stored entry left as it was, or the user entry, whose [tokens] is the
    length of its content, or the assistant entry, whose content is the
    token and whose [tokens] is the value the caller passed. *)
Theorem save_chat_history_tokens
    lang (H : list ChatHistory.t) new_id history historyRes contextLength regenerate_id :
  Forall (fun e =>
            In e H
            \/ (e = saved_user new_id history
                /\ ChatHistory.id e = new_id
                /\ ChatHistory.tokens e = str_length (ChatHistory.content e))
            \/ (e = saved_assistant lang historyRes
                /\ ChatHistory.content e = lang interrupted_key
                /\ ChatHistory.tokens e = ChatHistory.tokens historyRes))
    (save_chat_history lang H new_id history historyRes contextLength regenerate_id).
Proof.
  rewrite save_chat_history_unfold.
  match goal with
  | |- Forall _ (shift_while_tokens ?t ?m ?l) =>
      destruct (shift_while_tokens_drop t m l) as [k ->]
  end.
  match goal with |- Forall ?P _ => set (ok := P) end.
  assert (Hstored : forall l : list ChatHistory.t, l ⊆ H -> Forall ok l).
  { intros l Hl. apply List.Forall_forall. intros e He. left.
    apply list_elem_of_In, Hl, list_elem_of_In, He. }
  assert (Huser : Forall ok (H ++ [saved_user new_id history])).
  { apply Forall_app. split; [apply Hstored; reflexivity|].
    constructor; [|constructor]. right. left. repeat split. }
  apply Forall_drop, Forall_app. split.
  - destruct regenerate_id as [r|]; [|exact Huser].
    destruct (truthy r); [|exact Huser].
    destruct (findIndex (has_id r) H) as [i|]; apply Hstored;
      [apply subseteq_take | reflexivity].
  - constructor; [|constructor]. right. right. repeat split.
Qed.

(** C7 fails as stated for the assistant entry: its content becomes the
    13-character token while its [tokens] stays what the caller passed. *)
Lemma save_chat_history_tokens_counterexample :
  let out := save_chat_history Sample.lang [] "u1"
               (Sample.entry "" "user" "hi") (Sample.entry "a1" "assistant" "")
               4096 None in
  map (fun e => (ChatHistory.role e, ChatHistory.tokens e,
                 str_length (ChatHistory.content e))) out
  = [("user", 2, 2); ("assistant", 0, 13)].
Proof. reflexivity. Qed.

(** ** Turn parity *)

Lemma pair_induction {A} (P : list A -> Prop) :
  P [] -> (forall x, P [x]) -> (forall x y l, P l -> P (x :: y :: l)) ->
  forall l, P l.
Proof.
  intros Hnil Hone Hstep.
  assert (Hboth : forall l, P l /\ forall x, P (x :: l)).
  { induction l as [|y l [IH1 IH2]]; split; auto. }
  intros l. apply Hboth.
Qed.

Lemma turn_parity_app (l1 l2 : list ChatHistory.t) :
  turn_parity l1 = true -> turn_parity (l1 ++ l2) = turn_parity l2.
Proof.
  induction l1 as [| x | x y l IH] using pair_induction; simpl.
  - reflexivity.
  - discriminate.
  - intros Hp. apply andb_true_iff in Hp as [-> Hl]. simpl. auto.
Qed.

Lemma turn_parity_roles (l1 l2 : list ChatHistory.t) :
  map ChatHistory.role l1 = map ChatHistory.role l2 ->
  turn_parity l1 = turn_parity l2.
Proof.
  revert l2. induction l1 as [| x | x y l IH] using pair_induction;
    intros [|x2 [|y2 l2]]; simpl; try discriminate; try reflexivity.
  intros [= -> -> Hl]. rewrite (IH _ Hl). reflexivity.
Qed.

Lemma turn_parity_take_odd (l : list ChatHistory.t) i a :
  turn_parity l = true -> Nat.odd i = true -> (i < length l)%nat ->
  turn_parity (take i l ++ [a]) = String.eqb (ChatHistory.role a) "assistant".
Proof.
  revert i. induction l as [| x | x y l IH] using pair_induction;
    intros i; simpl; try discriminate.
  - intros _ _ Hlt. lia.
  - intros Hp Hodd Hlt.
    apply andb_true_iff in Hp as [Hxy Hl].
    apply andb_true_iff in Hxy as [Hx Hy].
    destruct i as [|[|i]]; [discriminate | |].
    + simpl. rewrite Hx. simpl. apply andb_true_r.
    + simpl. rewrite Hx, Hy. simpl. apply IH; [exact Hl | exact Hodd | lia].
Qed.

(** C3, as the code has it.  On a log with turn parity:
    - a save without [regenerate_id], of a user entry and an assistant
      entry, with the user content within the budget, keeps turn parity;
    - a save with a [regenerate_id] whose first entry is at an odd index (an
      assistant entry), of an assistant entry, within the budget, keeps
      turn parity;
    - correcting an entry by an entry of the same role keeps turn parity,
      and correcting an id that no entry has changes nothing.
    Deleting an entry is not among them. *)
Theorem turn_parity_preserved
    lang (H : list ChatHistory.t) new_id history historyRes contextLength :
  turn_parity H = true ->
  (ChatHistory.role history = "user" ->
   ChatHistory.role historyRes = "assistant" ->
   str_length (ChatHistory.content history) <= Math_round_half contextLength ->
   turn_parity
     (save_chat_history lang H new_id history historyRes contextLength None) = true)
  /\
  (forall X index,
     truthy X = true ->
     findIndex (has_id X) H = Some index ->
     Nat.odd index = true ->
     ChatHistory.role historyRes = "assistant" ->
     str_length (ChatHistory.content history) <= Math_round_half contextLength ->
     turn_parity
       (save_chat_history lang H new_id history historyRes contextLength (Some X)) = true)
  /\
  (forall i,
     (forall index old,
        findIndex (has_id i) H = Some index -> H !! index = Some old ->
        ChatHistory.role history = ChatHistory.role old) ->
     turn_parity (set_chat_history H i history) = true)
  /\
  (forall i, findIndex (has_id i) H = None -> set_chat_history H i history = H).
Proof.
  intros Hp. repeat split.
  - intros Hu Ha Hle. rewrite save_chat_history_unfold.
    rewrite shift_while_tokens_within by exact Hle.
    rewrite <- app_assoc, turn_parity_app by exact Hp.
    simpl. rewrite Hu, Ha. reflexivity.
  - intros X index HX Hfind Hodd Ha Hle. rewrite save_chat_history_unfold.
    rewrite HX, Hfind, shift_while_tokens_within by exact Hle.
    rewrite turn_parity_take_odd; try assumption.
    + simpl. rewrite Ha. reflexivity.
    + eapply findIndex_Some_lt. exact Hfind.
  - intros i Hrole. unfold set_chat_history.
    destruct (findIndex (has_id i) H) as [index|] eqn:Hfind; [|exact Hp].
    rewrite <- Hp. apply turn_parity_roles.
    rewrite list_fmap_insert.
    destruct (lookup_lt_is_Some_2 H index (findIndex_Some_lt _ _ _ Hfind))
      as [old Hold].
    rewrite (Hrole index old eq_refl Hold).
    apply list_insert_id. rewrite list_lookup_fmap, Hold. reflexivity.
  - intros i Hfind. unfold set_chat_history. rewrite Hfind. reflexivity.
Qed.

Lemma turn_parity_preserved_witness :
  turn_parity
    (save_chat_history Sample.lang Sample.hi_hello "u2"
       (Sample.entry "" "user" "more") (Sample.entry "a2" "assistant" "") 4096 None)
  = true
  /\ turn_parity
       (save_chat_history Sample.lang Sample.hi_hello "u2"
          (Sample.entry "" "user" "more") (Sample.entry "a2" "assistant" "") 4096
          (Some "a1")) = true
  /\ turn_parity
       (set_chat_history Sample.hi_hello "u1" (Sample.entry "" "user" "more")) = true.
Proof.
  destruct (turn_parity_preserved Sample.lang Sample.hi_hello "u2"
              (Sample.entry "" "user" "more") (Sample.entry "a2" "assistant" "")
              4096 eq_refl) as (Hsave & Hregen & Hset & _).
  split; [|split].
  - apply Hsave; [reflexivity | reflexivity | vm_compute; discriminate].
  - apply (Hregen "a1" 1%nat); try reflexivity. vm_compute; discriminate.
  - apply Hset. intros index old [= <-] [= <-]. reflexivity.
Defined.

(** C3 fails as stated: from the empty log, saving the turn "hi" and then
    deleting its user entry reaches a log of one entry, and deleting does
    not keep turn parity. *)
Lemma turn_parity_counterexample :
  let saved := save_chat_history Sample.lang [] "u1"
                 (Sample.entry "" "user" "hi") (Sample.entry "a1" "assistant" "")
                 4096 None in
  let H := delete_chat_history saved "u1" in
  reachable Sample.lang H /\
  turn_parity saved = true /\
  map ChatHistory.role H = ["assistant"] /\
  length H = 1%nat /\
  turn_parity H = false.
Proof.
  split; [|repeat split].
  apply reachable_delete, reachable_save, reachable_empty.
Qed.

(** ** Context assembly *)

Lemma fold_left_content_total (l : list ChatHistory.t) c :
  fold_left (fun acc item => acc + str_length (ChatHistory.content item)) l c
  = c + content_total l.
Proof.
  revert c. induction l as [|x l IH]; intros c; simpl; [lia|].
  rewrite IH. lia.
Qed.

Lemma content_total_nonneg l : 0 <= content_total l.
Proof.
  induction l as [|x l IH]; simpl; [lia|].
  pose proof (str_length_nonneg (ChatHistory.content x)). lia.
Qed.

(** The loop of [build_chat_history] stops at the first suffix whose
    contents, with the [c] characters of the current turn, are within the
    budget, or at the empty list. *)
Lemma shift_while_content_spec hmax (l : list ChatHistory.t) c :
  exists k,
    (k <= length l)%nat /\
    shift_while_content (c + content_total l) hmax l = drop k l /\
    (k = length l \/ c + content_total (drop k l) <= hmax) /\
    (forall j, (j < k)%nat -> hmax < c + content_total (drop j l)).
Proof.
  induction l as [|x l IH]; simpl.
  - exists 0%nat. repeat split; [lia | auto | intros j Hj; lia].
  - destruct (Z.gtb_spec (c + (str_length (ChatHistory.content x) + content_total l)) hmax)
      as [Hgt|Hle].
    + destruct IH as (k & Hk & Heq & Hstop & Hmin).
      exists (S k). repeat split.
      * lia.
      * replace (c + (str_length (ChatHistory.content x) + content_total l)
                   - str_length (ChatHistory.content x))
          with (c + content_total l) by lia.
        exact Heq.
      * destruct Hstop as [->|Hstop]; [left; reflexivity | right; exact Hstop].
      * intros [|j] Hj; simpl; [lia | apply Hmin; lia].
    + exists 0%nat. repeat split; [lia | | intros j Hj; lia].
      right. simpl. exact Hle.
Qed.

Lemma content_sum_assembled (l : list ChatHistory.t) ctx :
  content_sum (map project l ++ [Current ctx])
  = content_total l + str_length (ChatContext.content ctx).
Proof.
  induction l as [|x l IH]; simpl; [lia|]. rewrite IH. lia.
Qed.

Lemma build_chat_history_drop
    (H : list ChatHistory.t) (chatContext : ChatContext.t) (contextLength : Z) :
  exists k,
    (k <= length H)%nat /\
    build_chat_history H chatContext contextLength
      = map project (drop k H) ++ [Current chatContext] /\
    (k = length H \/
     str_length (ChatContext.content chatContext) + content_total (drop k H)
       <= Math_round_half contextLength) /\
    (forall j, (j < k)%nat ->
       Math_round_half contextLength
         < str_length (ChatContext.content chatContext) + content_total (drop j H)).
Proof.
  unfold build_chat_history. rewrite fold_left_content_total.
  destruct (shift_while_content_spec (Math_round_half contextLength) H
              (str_length (ChatContext.content chatContext)))
    as (k & Hk & -> & Hstop & Hmin).
  exists k. repeat split; assumption.
Qed.

(** C5.  The assembled context is a suffix of the stored log, each entry
    projected to role and content in stored order, followed by the current
    turn.  The suffix is the longest one within the budget: it starts at the
    first index [k] from which contents plus current content fit in
    [Math.round(contextLength * 0.5)], and is empty when there is none.
    The current turn is the last element whatever the budget. *)
Theorem build_chat_history_suffix
    (H : list ChatHistory.t) (chatContext : ChatContext.t) (contextLength : Z) :
  exists k,
    (k <= length H)%nat /\
    build_chat_history H chatContext contextLength
      = map project (drop k H) ++ [Current chatContext] /\
    (k = length H \/
     str_length (ChatContext.content chatContext) + content_total (drop k H)
       <= Math_round_half contextLength) /\
    (forall j, (j < k)%nat ->
       Math_round_half contextLength
         < str_length (ChatContext.content chatContext) + content_total (drop j H)) /\
    last (build_chat_history H chatContext contextLength) = Some (Current chatContext).
Proof.
  destruct (build_chat_history_drop H chatContext contextLength)
    as (k & Hk & Heq & Hstop & Hmin).
  exists k. rewrite Heq. repeat split; try assumption. apply last_snoc.
Qed.

Lemma build_chat_history_suffix_witness :
  exists k,
    build_chat_history Sample.hi_hello (ChatContext.mk "user" "again" [] "") 20
    = map project (drop k Sample.hi_hello)
        ++ [Current (ChatContext.mk "user" "again" [] "")] /\
    Math_round_half 20 < str_length "again" + content_total (drop 0 Sample.hi_hello).
Proof.
  destruct (build_chat_history_suffix Sample.hi_hello
              (ChatContext.mk "user" "again" [] "") 20)
    as (k & Hk & Heq & Hstop & Hmin & _).
  exists k. split; [exact Heq|]. apply Hmin.
  destruct k as [|k]; [|lia].
  destruct Hstop as [Hall|Hfit]; [discriminate Hall|].
  vm_compute in Hfit. congruence.
Defined.

(** C4, as the code has it.  For a context length that is not negative, the
    contents of the assembled context sum to at most
    [Math.round(0.5 * contextLength)] plus the length of the current user
    content; the bound [0.5 * contextLength] itself holds when the current
    content is not empty or the context length is even. *)
Theorem build_chat_history_budget
    (H : list ChatHistory.t) (chatContext : ChatContext.t) (contextLength : Z) :
  0 <= contextLength ->
  content_sum (build_chat_history H chatContext contextLength)
    <= Math_round_half contextLength + str_length (ChatContext.content chatContext)
  /\
  (0 < str_length (ChatContext.content chatContext) \/ Z.even contextLength = true ->
   2 * content_sum (build_chat_history H chatContext contextLength)
     <= contextLength + 2 * str_length (ChatContext.content chatContext)).
Proof.
  intros Hn.
  destruct (build_chat_history_drop H chatContext contextLength)
    as (k & Hk & -> & Hstop & _).
  rewrite content_sum_assembled.
  pose proof (Math_round_half_bounds contextLength) as Hb.
  pose proof (str_length_nonneg (ChatContext.content chatContext)) as Hc.
  pose proof (content_total_nonneg (drop k H)) as Ht.
  assert (Hempty : k = length H -> content_total (drop k H) = 0).
  { intros ->. rewrite drop_all. reflexivity. }
  split.
  - destruct Hstop as [Hall|Hfit]; [rewrite (Hempty Hall)|]; lia.
  - intros Hside.
    destruct Hstop as [Hall|Hfit]; [rewrite (Hempty Hall); lia|].
    destruct Hside as [Hpos|Heven]; [lia|].
    apply Z.even_spec in Heven as [m Hm]. lia.
Qed.

Lemma build_chat_history_budget_witness :
  let assembled :=
    build_chat_history Sample.hi_hello (ChatContext.mk "user" "again" [] "") 9 in
  content_sum assembled <= Math_round_half 9 + str_length "again" /\
  2 * content_sum assembled <= 9 + 2 * str_length "again".
Proof.
  destruct (build_chat_history_budget Sample.hi_hello
              (ChatContext.mk "user" "again" [] "") 9) as [Hround Hhalf].
  - vm_compute. discriminate.
  - split; [exact Hround|]. apply Hhalf. left. reflexivity.
Defined.

(** C4 fails as stated: with context length 1, an empty current content and
    one stored entry of one character, the assembled contents sum to 1,
    above 0.5 * 1 + 0. *)
Lemma build_chat_history_budget_counterexample :
  let assembled :=
    build_chat_history [Sample.stored "u1" "user" "a"]
      (ChatContext.mk "user" "" [] "") 1 in
  content_sum assembled = 1 /\
  ~ (2 * content_sum assembled <= 1 + 2 * str_length "").
Proof. split; [reflexivity|]. vm_compute. intros Hle. apply Hle. reflexivity. Qed.

(** ** Conversation configs *)

Lemma substring_length m s :
  String.length (String.substring 0 m s) = Nat.min m (String.length s).
Proof.
  revert s. induction m as [|m IH]; intros [|c s]; simpl; try reflexivity.
  rewrite IH. reflexivity.
Qed.

Lemma substring_prefix m s :
  String.prefix (String.substring 0 m s) s = true.
Proof.
  revert s. induction m as [|m IH]; intros [|c s]; simpl; try reflexivity.
  rewrite IH. destruct (ascii_dec c c); [reflexivity | congruence].
Qed.

Lemma prefix_refl s : String.prefix s s = true.
Proof.
  induction s as [|c s IH]; simpl; [reflexivity|].
  destruct (ascii_dec c c); [exact IH | congruence].
Qed.

Lemma lookup_write_file (fs : files) filePath text :
  write_file fs filePath text !! filePath = Some text.
Proof. unfold write_file. apply lookup_insert_eq. Qed.

(** C6.  The config [create_chat] returns has a title of at most 18
    characters: the first 18 characters of the supplied title when that is
    longer, the supplied title otherwise; the other fields are as supplied,
    and the config file of the conversation holds this config. *)
Theorem create_chat_title `{Host} (fs : files) (uuid : string) (now : Z)
    (model parameters title : string) :
  exists stored_title,
    get_prop "title" (create_chat fs uuid now model parameters title).2
      = Some (JStr stored_title) /\
    (String.length stored_title <= 18)%nat /\
    String.prefix stored_title title = true /\
    ((18 < String.length title)%nat ->
       stored_title = String.substring 0 18 title /\
       String.length stored_title = 18%nat) /\
    ((String.length title <= 18)%nat -> stored_title = title) /\
    (create_chat fs uuid now model parameters title).2
      = JObj [("model", JStr model);
              ("title", JStr stored_title);
              ("parameters", JStr parameters);
              ("contextPath", JStr (getContextPath uuid));
              ("context_id", JStr uuid);
              ("create_time", JNum now)] /\
    (create_chat fs uuid now model parameters title).1 !! getConfigFilePath uuid
      = Some (JSON_stringify (create_chat fs uuid now model parameters title).2).
Proof.
  unfold create_chat. simpl.
  destruct (Nat.ltb_spec 18 (String.length title)) as [Hlong|Hshort].
  - exists (String.substring 0 18 title).
    assert (Hlen : String.length (String.substring 0 18 title) = 18%nat).
    { rewrite substring_length. lia. }
    repeat split; try reflexivity; try lia;
      [apply substring_prefix | apply lookup_write_file].
  - exists title.
    repeat split; try reflexivity; try lia;
      [apply prefix_refl | apply lookup_write_file].
Qed.

Lemma create_chat_title_witness :
  get_prop "title"
    (@create_chat Sample.host ∅ "c9" 1700000000 "llama" "7b"
       "a title that is longer than eighteen").2
  = Some (JStr "a title that is lo")
  /\ get_prop "title"
       (@create_chat Sample.host ∅ "c9" 1700000000 "llama" "7b" "short").2
     = Some (JStr "short").
Proof.
  split.
  - destruct (@create_chat_title Sample.host ∅ "c9" 1700000000 "llama" "7b"
                "a title that is longer than eighteen")
      as (t & -> & _ & _ & Hlong & _).
    destruct Hlong as [-> _]; [simpl; lia | reflexivity].
  - destruct (@create_chat_title Sample.host ∅ "c9" 1700000000 "llama" "7b" "short")
      as (t & -> & _ & _ & _ & Hshort & _).
    rewrite Hshort; [reflexivity | simpl; lia].
Defined.

(** ** Reading documents *)

Lemma readJsonFile_unreadable `{Host} (fs : files) (filePath : string) :
  unreadable fs filePath -> readJsonFile fs filePath = empty_array.
Proof.
  unfold readJsonFile, file_exists, read_file.
  intros [Hmissing | [Hempty | (text & Htext & Hparse)]].
  - rewrite Hmissing. rewrite bool_decide_eq_false_2; [reflexivity|].
    intros [v Hv]. discriminate.
  - rewrite Hempty. rewrite bool_decide_eq_true_2 by eauto. reflexivity.
  - rewrite Htext. rewrite bool_decide_eq_true_2 by eauto. simpl.
    destruct (String.length text =? 0)%nat; [reflexivity|].
    rewrite Hparse. reflexivity.
Qed.

Lemma readJsonFile_parsed `{Host} (fs : files) (filePath text : string) v :
  fs !! filePath = Some text -> text <> "" -> JSON_parse text = Some v ->
  readJsonFile fs filePath = v.
Proof.
  intros Hfile Htext Hparse. unfold readJsonFile, file_exists, read_file.
  rewrite Hfile. rewrite bool_decide_eq_true_2 by eauto. simpl.
  destruct text as [|c text]; [congruence|]. simpl.
  rewrite Hparse. reflexivity.
Qed.

Lemma chat_list_entry_unreadable `{Host} (fs : files) (dir : string) :
  unreadable fs (path_resolve dir "config.json") ->
  chat_list_entry fs dir = Some None.
Proof.
  intros Hbad. unfold chat_list_entry.
  rewrite (readJsonFile_unreadable _ _ Hbad). reflexivity.
Qed.

Lemma collect_chat_list_unreadable `{Host} (fs : files) (dirs : list string) :
  Forall (fun dir => unreadable fs (path_resolve dir "config.json")) dirs ->
  collect_chat_list fs dirs = Some [].
Proof.
  induction 1 as [|dir dirs Hdir _ IH]; simpl; [reflexivity|].
  rewrite (chat_list_entry_unreadable _ _ Hdir), IH. reflexivity.
Qed.

Lemma collect_chat_list_skip `{Host} (fs : files) (before after : list string) dir :
  unreadable fs (path_resolve dir "config.json") ->
  collect_chat_list fs (before ++ dir :: after)
  = collect_chat_list fs (before ++ after).
Proof.
  intros Hbad. induction before as [|d before IH]; simpl.
  - rewrite (chat_list_entry_unreadable _ _ Hbad).
    destruct (collect_chat_list fs after); reflexivity.
  - rewrite IH. reflexivity.
Qed.

(** C8.  A file that is missing, empty or not a JSON text reads as the empty
    array: through [readJsonFile], [read_chat] and [read_history]; the loop
    of [get_chat_list] passes over its directory without an error, as if
    the directory were not there, and [get_chat_list] returns the empty list
    when every config file is such a file. *)
Theorem unreadable_files_read_empty `{Host} (fs : files) :
  (forall filePath,
     unreadable fs filePath -> readJsonFile fs filePath = empty_array) /\
  (forall uuid,
     unreadable fs (getConfigFilePath uuid) -> read_chat fs uuid = empty_array) /\
  (forall uuid,
     unreadable fs (getHistoryFilePath uuid) -> read_history fs uuid = empty_array) /\
  (forall dir,
     unreadable fs (path_resolve dir "config.json") ->
     chat_list_entry fs dir = Some None) /\
  (forall before dir after,
     unreadable fs (path_resolve dir "config.json") ->
     collect_chat_list fs (before ++ dir :: after)
     = collect_chat_list fs (before ++ after)) /\
  (Forall (fun dir => unreadable fs (path_resolve dir "config.json"))
     (readdir (getContextPath "")) ->
   get_chat_list fs = Some []).
Proof.
  split; [|split; [|split; [|split; [|split]]]].
  - intros filePath. apply readJsonFile_unreadable.
  - intros uuid. apply readJsonFile_unreadable.
  - intros uuid. apply readJsonFile_unreadable.
  - intros dir. apply chat_list_entry_unreadable.
  - intros before dir after. apply collect_chat_list_skip.
  - intros Hall. unfold get_chat_list.
    rewrite (collect_chat_list_unreadable _ _ Hall). reflexivity.
Qed.

Lemma unreadable_files_read_empty_witness :
  @read_chat Sample.host Sample.disk "c4" = empty_array
  /\ @read_history Sample.host Sample.disk "c3" = empty_array
  /\ @read_chat Sample.host Sample.disk "c3" = empty_array
  /\ @chat_list_entry Sample.host Sample.disk "/data/context/c3" = Some None
  /\ @collect_chat_list Sample.host Sample.disk
       (["/data/context/c1"; "/data/context/c2"]
          ++ "/data/context/c3" :: ["/data/context/c4"])
     = @collect_chat_list Sample.host Sample.disk
         (["/data/context/c1"; "/data/context/c2"] ++ ["/data/context/c4"])
  /\ @get_chat_list Sample.host ∅ = Some [].
Proof.
  destruct (@unreadable_files_read_empty Sample.host Sample.disk)
    as (_ & Hchat & Hhistory & Hentry & Hskip & _).
  destruct (@unreadable_files_read_empty Sample.host ∅)
    as (_ & _ & _ & _ & _ & Hlist).
  split; [|split; [|split; [|split; [|split]]]].
  - apply Hchat. left. reflexivity.
  - apply Hhistory. right. left. reflexivity.
  - apply Hchat. right. right. exists "{". split; reflexivity.
  - apply Hentry. right. right. exists "{". split; reflexivity.
  - apply Hskip. right. right. exists "{". split; reflexivity.
  - apply Hlist. repeat constructor.
Defined.

(** C9.  When [JSON.parse] reads back the text [JSON.stringify] gives for
    the created config (a text that is not empty), [read_chat] on the
    conversation returns the config [create_chat] returned: same model,
    parameters, title as truncated, contextPath, context_id and
    create_time. *)
Theorem create_chat_read_chat `{Host} (fs : files) (uuid : string) (now : Z)
    (model parameters title : string) :
  let created := create_chat fs uuid now model parameters title in
  JSON_parse (JSON_stringify created.2) = Some created.2 ->
  JSON_stringify created.2 <> "" ->
  read_chat created.1 uuid = created.2 /\
  get_prop "model" (read_chat created.1 uuid) = Some (JStr model) /\
  get_prop "parameters" (read_chat created.1 uuid) = Some (JStr parameters) /\
  get_prop "title" (read_chat created.1 uuid) = get_prop "title" created.2 /\
  get_prop "contextPath" (read_chat created.1 uuid)
    = Some (JStr (getContextPath uuid)) /\
  get_prop "context_id" (read_chat created.1 uuid) = Some (JStr uuid) /\
  get_prop "create_time" (read_chat created.1 uuid) = Some (JNum now).
Proof.
  intros created Hround Htext.
  assert (Hread : read_chat created.1 uuid = created.2).
  { apply (readJsonFile_parsed _ _ (JSON_stringify created.2));
      [apply lookup_write_file | exact Htext | exact Hround]. }
  rewrite Hread. repeat split; reflexivity.
Qed.

Lemma create_chat_read_chat_witness :
  let created :=
    @create_chat Sample.host Sample.disk "c9" 1700000000 "llama" "7b"
      "a title that is longer than eighteen" in
  @read_chat Sample.host created.1 "c9" = created.2.
Proof.
  apply (@create_chat_read_chat Sample.host Sample.disk "c9" 1700000000
           "llama" "7b" "a title that is longer than eighteen").
  - vm_compute. reflexivity.
  - vm_compute. discriminate.
Defined.

(** ** Listing conversations *)

Lemma insert_desc_perm a l : Permutation (insert_desc a l) (a :: l).
Proof.
  induction l as [|b l IH]; simpl; [reflexivity|].
  destruct (sort_key b - sort_key a >? 0); [|reflexivity].
  rewrite IH. apply perm_swap.
Qed.

Lemma sort_desc_perm l : Permutation (sort_desc l) l.
Proof.
  induction l as [|a l IH]; simpl; [reflexivity|].
  rewrite insert_desc_perm, IH. reflexivity.
Qed.

Lemma insert_desc_sorted a l :
  StronglySorted create_time_ge l -> StronglySorted create_time_ge (insert_desc a l).
Proof.
  induction 1 as [|b l Hsorted IH Hb]; simpl.
  - repeat constructor.
  - destruct (Z.gtb_spec (sort_key b - sort_key a) 0) as [Hgt|Hle].
    + constructor; [exact IH|].
      rewrite insert_desc_perm. constructor; [unfold create_time_ge; lia | exact Hb].
    + constructor; [constructor; assumption|].
      constructor; [unfold create_time_ge; lia|].
      eapply Forall_impl; [exact Hb|].
      unfold create_time_ge. intros c Hc. lia.
Qed.

Lemma sort_desc_sorted l : StronglySorted create_time_ge (sort_desc l).
Proof.
  induction l as [|a l IH]; simpl; [constructor | apply insert_desc_sorted, IH].
Qed.

Lemma obj_get_app_new key fields v :
  obj_get key fields = None -> obj_get key (fields ++ [(key, v)]) = Some v.
Proof.
  induction fields as [|[k w] fields IH]; simpl.
  - rewrite String.eqb_refl. reflexivity.
  - destruct (String.eqb k key); [discriminate | exact IH].
Qed.

Lemma chat_list_entry_document `{Host} (fs : files) (dir : string) :
  config_document (readJsonFile fs (path_resolve dir "config.json")) = true ->
  chat_list_entry fs dir =
  Some (if non_empty (readJsonFile fs (path_resolve dir "config.json"))
        then Some (with_create_time (path_resolve dir "config.json")
                     (readJsonFile fs (path_resolve dir "config.json")))
        else None).
Proof.
  unfold chat_list_entry.
  destruct (readJsonFile fs (path_resolve dir "config.json"))
    as [|b|n|s|items|fields]; unfold config_document, non_empty; simpl;
    try discriminate; try reflexivity.
  - destruct (String.length s); [reflexivity | discriminate].
  - destruct (length items); [reflexivity | discriminate].
  - destruct fields as [|field fields]; [reflexivity|].
    cbn [length]. unfold file_create_time.
    destruct (obj_get "create_time" (field :: fields)); reflexivity.
Qed.

Lemma collect_chat_list_documents `{Host} (fs : files) (dirs : list string) :
  Forall (fun dir =>
            config_document (readJsonFile fs (path_resolve dir "config.json")) = true)
    dirs ->
  collect_chat_list fs dirs = Some (listed_configs fs dirs).
Proof.
  unfold listed_configs.
  induction 1 as [|dir dirs Hdir _ IH]; simpl; [reflexivity|].
  rewrite (chat_list_entry_document _ _ Hdir), IH.
  destruct (non_empty (readJsonFile fs (path_resolve dir "config.json")));
    reflexivity.
Qed.

Lemma with_create_time_numeric `{Host} (configFilePath : string) (cfg : json) :
  config_document cfg = true -> non_empty cfg = true ->
  exists n, create_time_of (with_create_time configFilePath cfg) = Some n.
Proof.
  destruct cfg as [|b|n|s|items|fields]; unfold config_document;
    try discriminate;
    try (intros Hdoc Hne; rewrite Hne in Hdoc; discriminate).
  intros Hdoc _. unfold create_time_of, with_create_time.
  destruct (obj_get "create_time" fields) as [[| | n | | |]|] eqn:Hget;
    try discriminate.
  - exists n. simpl. rewrite Hget. reflexivity.
  - eexists. simpl. rewrite (obj_get_app_new _ _ _ Hget). reflexivity.
Qed.

Lemma listed_configs_numeric `{Host} (fs : files) (dirs : list string) :
  Forall (fun dir =>
            config_document (readJsonFile fs (path_resolve dir "config.json")) = true)
    dirs ->
  Forall (fun cfg => exists n, create_time_of cfg = Some n) (listed_configs fs dirs).
Proof.
  intros Hdocs. unfold listed_configs. apply List.Forall_forall.
  intros cfg Hin. apply in_map_iff in Hin as (dir & <- & Hdir).
  apply filter_In in Hdir as [Hdir Hne].
  apply with_create_time_numeric; [|exact Hne].
  rewrite List.Forall_forall in Hdocs. apply Hdocs, Hdir.
Qed.

(** C10.  When every config file holds a config document, [get_chat_list]
    returns the stable arrangement by descending [create_time] of the
    non-empty config documents: the list is a permutation of these, one per
    directory whose config is non-empty and none else, every one has a
    numeric [create_time] and the list is sorted by descending
    [create_time]; a config without [create_time] appears
    with the creation time of its file in whole seconds, 0 when the file
    cannot be stat'ed. *)
Theorem get_chat_list_sorted `{Host} (fs : files) :
  Forall (fun dir =>
            config_document (readJsonFile fs (path_resolve dir "config.json")) = true)
    (readdir (getContextPath "")) ->
  exists contextList,
    get_chat_list fs = Some contextList /\
    contextList = sort_desc (listed_configs fs (readdir (getContextPath ""))) /\
    Permutation contextList (listed_configs fs (readdir (getContextPath ""))) /\
    StronglySorted create_time_ge contextList /\
    Forall (fun cfg => exists n, create_time_of cfg = Some n) contextList /\
    (forall cfg,
       In cfg contextList <->
       exists dir,
         In dir (readdir (getContextPath "")) /\
         non_empty (readJsonFile fs (path_resolve dir "config.json")) = true /\
         cfg = with_create_time (path_resolve dir "config.json")
                 (readJsonFile fs (path_resolve dir "config.json"))) /\
    (forall configFilePath fields,
       obj_get "create_time" fields = None ->
       create_time_of (with_create_time configFilePath (JObj fields))
       = Some (match stat_birthtime configFilePath with
               | Some birthtime => birthtime / 1000
               | None => 0
               end)) /\
    (forall configFilePath fields n,
       obj_get "create_time" fields = Some (JNum n) ->
       with_create_time configFilePath (JObj fields) = JObj fields).
Proof.
  intros Hdocs.
  exists (sort_desc (listed_configs fs (readdir (getContextPath "")))).
  pose proof (listed_configs_numeric _ _ Hdocs) as Hnum.
  split; [|split; [|split; [|split; [|split; [|split; [|split]]]]]].
  - unfold get_chat_list. rewrite (collect_chat_list_documents _ _ Hdocs).
    replace (forallb _ _) with true; [reflexivity|].
    symmetry. apply forallb_forall. intros cfg Hin.
    rewrite List.Forall_forall in Hnum. destruct (Hnum cfg Hin) as [n Hn].
    rewrite Hn. apply bool_decide_eq_true_2. eauto.
  - reflexivity.
  - apply sort_desc_perm.
  - apply sort_desc_sorted.
  - eapply Permutation_Forall; [symmetry; apply sort_desc_perm | exact Hnum].
  - intros cfg. rewrite (Permutation_in' (x := cfg) eq_refl (sort_desc_perm _)).
    unfold listed_configs. rewrite in_map_iff. split.
    + intros (dir & <- & Hdir). apply filter_In in Hdir as [Hdir Hne].
      exists dir. auto.
    + intros (dir & Hdir & Hne & ->). exists dir. split; [reflexivity|].
      apply filter_In. auto.
  - intros configFilePath fields Hget. unfold create_time_of, with_create_time.
    rewrite Hget. simpl. rewrite (obj_get_app_new _ _ _ Hget). reflexivity.
  - intros configFilePath fields n Hget. unfold with_create_time.
    rewrite Hget. reflexivity.
Qed.

Lemma get_chat_list_sorted_witness :
  @get_chat_list Sample.host Sample.disk
  = Some [JObj [("title", JStr "two"); ("create_time", JNum 250)];
          JObj [("title", JStr "one"); ("create_time", JNum 100)]].
Proof.
  destruct (@get_chat_list_sorted Sample.host Sample.disk)
    as (contextList & -> & -> & _).
  - repeat constructor.
  - reflexivity.
Defined.

(** * Further properties of the service *)

(** ** The trimming loop of a saved turn *)

Lemma save_chat_history_candidates lang H new_id history historyRes n rid :
  save_chat_history lang H new_id history historyRes n rid
  = shift_while_tokens (str_length (ChatHistory.content history)) (Math_round_half n)
      (save_candidates lang H new_id history historyRes rid).
Proof. rewrite save_chat_history_unfold. reflexivity. Qed.

Lemma tokens_total_app l1 l2 :
  tokens_total (l1 ++ l2) = tokens_total l1 + tokens_total l2.
Proof. induction l1 as [|x l1 IH]; simpl; [reflexivity|]. rewrite IH. lia. Qed.

Lemma tokens_total_nonneg l :
  Forall (fun e => 0 <= ChatHistory.tokens e) l -> 0 <= tokens_total l.
Proof. induction 1 as [|x l Hx _ IH]; simpl; lia. Qed.

Lemma shift_while_tokens_spec hmax (l : list ChatHistory.t) total :
  exists k,
    (k <= length l)%nat /\
    shift_while_tokens total hmax l = drop k l /\
    (k = length l \/ total - tokens_total (take k l) <= hmax) /\
    (forall j, (j < k)%nat -> hmax < total - tokens_total (take j l)).
Proof.
  revert total. induction l as [|x l IH]; intros total; simpl.
  - exists 0%nat. split; [lia|]. split; [reflexivity|]. split; [left; reflexivity|].
    intros j Hj. lia.
  - destruct (Z.gtb_spec total hmax) as [Hgt|Hle].
    + destruct (IH (total - ChatHistory.tokens x)) as (k & Hk & Heq & Hstop & Hmin).
      exists (S k). split; [lia|]. split; [exact Heq|]. split.
      * destruct Hstop as [->|Hstop]; [left; reflexivity|].
        right. simpl. lia.
      * intros [|j] Hj; simpl; [lia|].
        specialize (Hmin j ltac:(lia)). lia.
    + exists 0%nat. split; [lia|]. split; [reflexivity|]. split.
      * right. simpl. lia.
      * intros j Hj. lia.
Qed.

(** With token counts that are not negative, the loop empties [l ++ [r]]
    exactly when the running total is still above the budget after all of
    [l] is taken off. *)
Lemma shift_while_tokens_snoc_nil hmax (l : list ChatHistory.t) r total :
  Forall (fun e => 0 <= ChatHistory.tokens e) l ->
  shift_while_tokens total hmax (l ++ [r]) = [] <-> hmax < total - tokens_total l.
Proof.
  intros Hl. revert total. induction Hl as [|x l Hx Hl IH]; intros total; simpl.
  - destruct (Z.gtb_spec total hmax); split; intros Hh; try reflexivity;
      try discriminate; lia.
  - destruct (Z.gtb_spec total hmax) as [Hgt|Hle].
    + rewrite IH. lia.
    + pose proof (tokens_total_nonneg l Hl).
      split; [discriminate | lia].
Qed.

(** X1.  The trimming of [save_chat_history].  The written list is the list
    built for the turn without its first [k] entries, where [k] is the least
    count at which the new user content length minus the [tokens] of the
    entries taken off is within [Math.round(contextLength * 0.5)], or the
    whole length when there is none: the loop weighs the new message against
    the entries it drops, not the stored total. *)
Theorem save_chat_history_trimming
    lang (H : list ChatHistory.t) new_id history historyRes contextLength regenerate_id :
  let built := save_candidates lang H new_id history historyRes regenerate_id in
  let budget := Math_round_half contextLength in
  let fresh := str_length (ChatHistory.content history) in
  exists k,
    (k <= length built)%nat /\
    save_chat_history lang H new_id history historyRes contextLength regenerate_id
      = drop k built /\
    (k = length built \/ fresh - tokens_total (take k built) <= budget) /\
    (forall j, (j < k)%nat -> budget < fresh - tokens_total (take j built)).
Proof.
  intros built budget fresh. rewrite save_chat_history_candidates.
  apply shift_while_tokens_spec.
Qed.

Lemma save_chat_history_trimming_witness :
  exists k,
    save_chat_history Sample.lang Fixture.two_turns "u3"
      (Sample.entry "" "user" "0123456789") (Sample.entry "a3" "assistant" "") 4 None
    = drop k (save_candidates Sample.lang Fixture.two_turns "u3"
                (Sample.entry "" "user" "0123456789")
                (Sample.entry "a3" "assistant" "") None)
    /\ Math_round_half 4 < str_length "0123456789".
Proof.
  destruct (save_chat_history_trimming Sample.lang Fixture.two_turns "u3"
              (Sample.entry "" "user" "0123456789") (Sample.entry "a3" "assistant" "")
              4 None) as (k & Hk & Heq & Hstop & Hmin).
  exists k. split; [exact Heq|].
  destruct k as [|k].
  - destruct Hstop as [Hall|Hfit]; [discriminate Hall|].
    vm_compute in Hfit. congruence.
  - apply (Hmin 0%nat). lia.
Defined.

(** X2.  Without [regenerate_id] (absent, or the empty string), with stored
    token counts and a context length that are not negative, the assistant
    entry of the turn is always written and is the last entry: what
    [get_last_chat_history] returns right after the save, whatever the
    trimming took off. *)
Theorem get_last_chat_history_after_save
    lang (H : list ChatHistory.t) new_id history historyRes contextLength regenerate_id :
  regenerate_id = None \/ regenerate_id = Some "" ->
  Forall (fun e => 0 <= ChatHistory.tokens e) H ->
  0 <= contextLength ->
  get_last_chat_history
    (save_chat_history lang H new_id history historyRes contextLength regenerate_id)
  = Some (saved_assistant lang historyRes).
Proof.
  intros Hrid Htokens Hn.
  assert (Hbuilt : save_candidates lang H new_id history historyRes regenerate_id
                   = (H ++ [saved_user new_id history]) ++ [saved_assistant lang historyRes]).
  { destruct Hrid as [-> | ->]; reflexivity. }
  rewrite save_chat_history_candidates, Hbuilt. unfold get_last_chat_history.
  match goal with
  | |- last (shift_while_tokens ?t ?m (?l ++ [?r])) = _ =>
      destruct (shift_while_tokens_drop t m (l ++ [r])) as [k Hk];
      pose proof (shift_while_tokens_snoc_nil m l r t) as Hnil
  end.
  rewrite Hk in *.
  destruct (last_snoc_drop (H ++ [saved_user new_id history])
              (saved_assistant lang historyRes) k) as [Hempty|Hlast]; [|exact Hlast].
  exfalso. apply Hnil in Hempty.
  - rewrite tokens_total_app in Hempty. simpl in Hempty.
    pose proof (tokens_total_nonneg H Htokens).
    pose proof (Math_round_half_bounds contextLength). lia.
  - apply Forall_app. split; [exact Htokens|].
    constructor; [|constructor]. simpl. apply str_length_nonneg.
Qed.

Lemma get_last_chat_history_after_save_witness :
  get_last_chat_history
    (save_chat_history Sample.lang Fixture.two_turns "u3"
       (Sample.entry "" "user" "0123456789") (Sample.entry "a3" "assistant" "") 4 None)
  = Some (saved_assistant Sample.lang (Sample.entry "a3" "assistant" "")).
Proof.
  apply get_last_chat_history_after_save.
  - left. reflexivity.
  - repeat constructor; vm_compute; discriminate.
  - lia.
Defined.

(** X3.  Regeneration can wipe the log.  With [regenerate_id] found at
    [index] and stored token counts that are not negative, the written log
    is empty, the new assistant entry included, exactly when the new user
    content length exceeds the budget by more than the [tokens] of the
    entries before [index]. *)
Theorem save_chat_history_regenerate_wipes
    lang (H : list ChatHistory.t) new_id history historyRes contextLength X index :
  truthy X = true ->
  findIndex (has_id X) H = Some index ->
  Forall (fun e => 0 <= ChatHistory.tokens e) H ->
  save_chat_history lang H new_id history historyRes contextLength (Some X) = []
  <-> Math_round_half contextLength
        < str_length (ChatHistory.content history) - tokens_total (take index H).
Proof.
  intros HX Hfind Htokens.
  rewrite save_chat_history_candidates. unfold save_candidates.
  rewrite HX, Hfind. apply shift_while_tokens_snoc_nil.
  apply Forall_take. exact Htokens.
Qed.

Lemma save_chat_history_regenerate_wipes_witness :
  save_chat_history Sample.lang Sample.hi_hello "u2"
    (Sample.entry "" "user" "0123456789") (Sample.entry "a2" "assistant" "") 4
    (Some "a1") = [].
Proof.
  apply (save_chat_history_regenerate_wipes Sample.lang Sample.hi_hello "u2"
           (Sample.entry "" "user" "0123456789") (Sample.entry "a2" "assistant" "")
           4 "a1" 1%nat).
  - reflexivity.
  - reflexivity.
  - repeat constructor; vm_compute; discriminate.
  - vm_compute. reflexivity.
Defined.

(** ** Ids, deletions and corrections *)

Lemma findIndex_none (l : list ChatHistory.t) X :
  Forall (fun e => ChatHistory.id e <> X) l -> findIndex (has_id X) l = None.
Proof.
  induction 1 as [|e l He _ IH]; simpl; [reflexivity|].
  unfold has_id at 1. apply String.eqb_neq in He. rewrite He, IH. reflexivity.
Qed.

Lemma findIndex_snoc (l : list ChatHistory.t) e tail X :
  Forall (fun e => ChatHistory.id e <> X) l ->
  ChatHistory.id e = X ->
  findIndex (has_id X) (l ++ e :: tail) = Some (length l).
Proof.
  intros Hl He. induction Hl as [|x l Hx _ IH]; simpl.
  - unfold has_id. rewrite He, String.eqb_refl. reflexivity.
  - unfold has_id at 1. apply String.eqb_neq in Hx. rewrite Hx, IH. reflexivity.
Qed.

Lemma turn_parity_even (l : list ChatHistory.t) :
  turn_parity l = true -> Nat.even (length l) = true.
Proof.
  induction l as [| x | x y l IH] using pair_induction; simpl;
    [reflexivity | discriminate |].
  intros Hp. apply andb_true_iff in Hp as [_ Hl]. auto.
Qed.

(** X4.  A [regenerate_id] that no entry has.  Within the budget the stored
    log is kept whole and the assistant entry alone is appended, the user
    entry of the turn not being stored: a log with turn parity loses it. *)
Theorem save_chat_history_regenerate_miss
    lang (H : list ChatHistory.t) new_id history historyRes contextLength X :
  truthy X = true ->
  Forall (fun e => ChatHistory.id e <> X) H ->
  str_length (ChatHistory.content history) <= Math_round_half contextLength ->
  save_chat_history lang H new_id history historyRes contextLength (Some X)
    = H ++ [saved_assistant lang historyRes]
  /\ (turn_parity H = true ->
      turn_parity
        (save_chat_history lang H new_id history historyRes contextLength (Some X))
      = false).
Proof.
  intros HX Hmiss Hle.
  assert (Heq : save_chat_history lang H new_id history historyRes contextLength (Some X)
                = H ++ [saved_assistant lang historyRes]).
  { rewrite save_chat_history_candidates. unfold save_candidates.
    rewrite HX, (findIndex_none _ _ Hmiss).
    apply shift_while_tokens_within. exact Hle. }
  split; [exact Heq|].
  intros Hp. rewrite Heq, turn_parity_app by exact Hp. reflexivity.
Qed.

Lemma save_chat_history_regenerate_miss_witness :
  save_chat_history Sample.lang Sample.hi_hello "u2"
    (Sample.entry "" "user" "more") (Sample.entry "a2" "assistant" "") 4096
    (Some "gone")
  = Sample.hi_hello ++ [saved_assistant Sample.lang (Sample.entry "a2" "assistant" "")]
  /\ turn_parity
       (save_chat_history Sample.lang Sample.hi_hello "u2"
          (Sample.entry "" "user" "more") (Sample.entry "a2" "assistant" "") 4096
          (Some "gone")) = false.
Proof.
  destruct (save_chat_history_regenerate_miss Sample.lang Sample.hi_hello "u2"
              (Sample.entry "" "user" "more") (Sample.entry "a2" "assistant" "")
              4096 "gone") as [Heq Hparity].
  - reflexivity.
  - repeat constructor; simpl; discriminate.
  - vm_compute. discriminate.
  - split; [exact Heq | apply Hparity; reflexivity].
Defined.

(** X5.  Ids stay unique.  When the stored ids are pairwise distinct, the id
    drawn for the user entry and the id of the passed assistant entry are
    new and differ from each other, the ids of the written log are pairwise
    distinct, with or without [regenerate_id] and whatever is trimmed. *)
Theorem save_chat_history_ids_unique
    lang (H : list ChatHistory.t) new_id history historyRes contextLength regenerate_id :
  NoDup (map ChatHistory.id H) ->
  ~ In new_id (map ChatHistory.id H) ->
  ~ In (ChatHistory.id historyRes) (map ChatHistory.id H) ->
  new_id <> ChatHistory.id historyRes ->
  NoDup (map ChatHistory.id
           (save_chat_history lang H new_id history historyRes contextLength
              regenerate_id)).
Proof.
  intros Hnodup Hnew Hres Hne.
  rewrite save_chat_history_candidates.
  match goal with
  | |- NoDup (map _ (shift_while_tokens ?t ?m ?l)) =>
      destruct (shift_while_tokens_drop t m l) as [k ->]
  end.
  rewrite <- skipn_map.
  eapply sublist_NoDup; [|apply sublist_drop].
  assert (Hkept : forall l : list ChatHistory.t,
            l `sublist_of` H ->
            NoDup (map ChatHistory.id (l ++ [saved_assistant lang historyRes]))).
  { intros l Hl.
    assert (Hids : map ChatHistory.id l `sublist_of` map ChatHistory.id H).
    { change (ChatHistory.id <$> l `sublist_of` ChatHistory.id <$> H).
      apply fmap_sublist. exact Hl. }
    rewrite map_app. apply NoDup_app. split; [|split].
    - eapply sublist_NoDup; [exact Hnodup | exact Hids].
    - intros x Hx Hin. apply list_elem_of_singleton in Hin. subst x.
      apply Hres. apply list_elem_of_In.
      apply (sublist_subseteq _ _ Hids). exact Hx.
    - apply NoDup_singleton. }
  assert (Huser : NoDup (map ChatHistory.id
                           ((H ++ [saved_user new_id history])
                              ++ [saved_assistant lang historyRes]))).
  { rewrite <- app_assoc, map_app. apply NoDup_app. split; [exact Hnodup|]. split.
    - intros x Hx Hin. simpl in Hin.
      apply list_elem_of_In in Hx.
      apply elem_of_cons in Hin as [->|Hin]; [contradiction|].
      apply list_elem_of_singleton in Hin. subst x. contradiction.
    - simpl. apply NoDup_cons. split; [|apply NoDup_singleton].
      intros Hin. apply list_elem_of_singleton in Hin. contradiction. }
  unfold save_candidates.
  destruct regenerate_id as [r|]; [|exact Huser].
  destruct (truthy r); [|exact Huser].
  destruct (findIndex (has_id r) H) as [i|]; apply Hkept;
    [apply sublist_take | reflexivity].
Qed.

Lemma save_chat_history_ids_unique_witness :
  NoDup (map ChatHistory.id
           (save_chat_history Sample.lang Sample.hi_hello "u2"
              (Sample.entry "" "user" "more") (Sample.entry "a2" "assistant" "")
              4096 None)).
Proof.
  apply save_chat_history_ids_unique.
  - vm_compute. repeat constructor; rewrite ?list_elem_of_In; simpl; intuition discriminate.
  - simpl. intuition discriminate.
  - simpl. intuition discriminate.
  - discriminate.
Defined.

Lemma delete_chat_history_absent (H : list ChatHistory.t) i :
  Forall (fun e => ChatHistory.id e <> i) H -> delete_chat_history H i = H.
Proof.
  unfold delete_chat_history.
  induction 1 as [|e l He _ IH]; simpl; [reflexivity|].
  apply String.eqb_neq in He. rewrite He. simpl. rewrite IH. reflexivity.
Qed.

Lemma delete_chat_history_clean (H : list ChatHistory.t) i :
  Forall (fun e => ChatHistory.id e <> i) (delete_chat_history H i).
Proof.
  unfold delete_chat_history.
  induction H as [|e l IH]; simpl; [constructor|].
  destruct (String.eqb_spec (ChatHistory.id e) i) as [Heq|Hne]; simpl;
    [exact IH | constructor; assumption].
Qed.

Lemma delete_chat_history_sublist (H : list ChatHistory.t) i :
  delete_chat_history H i `sublist_of` H.
Proof.
  unfold delete_chat_history.
  induction H as [|e l IH]; simpl; [constructor|].
  destruct (negb (String.eqb (ChatHistory.id e) i));
    [apply sublist_skip | apply sublist_cons]; exact IH.
Qed.

(** X6.  [delete_chat_history] takes off every entry with the id, not the
    first alone: no entry of the result has the id; the entries with another
    id are all kept, in their order; a log without the id is left as it
    was; deleting twice is deleting once. *)
Theorem delete_chat_history_removes_all (H : list ChatHistory.t) (i : string) :
  Forall (fun e => ChatHistory.id e <> i) (delete_chat_history H i) /\
  delete_chat_history H i `sublist_of` H /\
  (forall e, In e (delete_chat_history H i) <-> In e H /\ ChatHistory.id e <> i) /\
  (Forall (fun e => ChatHistory.id e <> i) H -> delete_chat_history H i = H) /\
  delete_chat_history (delete_chat_history H i) i = delete_chat_history H i.
Proof.
  split; [apply delete_chat_history_clean|].
  split; [apply delete_chat_history_sublist|].
  split; [|split].
  - intros e. unfold delete_chat_history. rewrite filter_In.
    rewrite negb_true_iff, String.eqb_neq. reflexivity.
  - apply delete_chat_history_absent.
  - apply delete_chat_history_absent, delete_chat_history_clean.
Qed.

Lemma delete_chat_history_removes_all_witness :
  delete_chat_history Fixture.two_turns "gone" = Fixture.two_turns.
Proof.
  destruct (delete_chat_history_removes_all Fixture.two_turns "gone")
    as (_ & _ & _ & Habsent & _).
  apply Habsent. repeat constructor; simpl; discriminate.
Defined.

Lemma delete_chat_history_length (H : list ChatHistory.t) i :
  NoDup (map ChatHistory.id H) -> In i (map ChatHistory.id H) ->
  S (length (delete_chat_history H i)) = length H.
Proof.
  induction H as [|e l IH]; simpl; [contradiction|].
  intros Hnodup Hin. apply NoDup_cons in Hnodup as [Hfresh Hnodup].
  destruct (String.eqb_spec (ChatHistory.id e) i) as [Heq|Hne]; simpl.
  - f_equal. change (length (delete_chat_history l i) = length l).
    rewrite delete_chat_history_absent; [reflexivity|].
    apply List.Forall_forall. intros x Hx Hxi. apply Hfresh.
    apply list_elem_of_In. rewrite Heq, <- Hxi. apply in_map. exact Hx.
  - f_equal. apply IH; [exact Hnodup|]. destruct Hin as [Hin|Hin]; [contradiction|exact Hin].
Qed.

Lemma generateObject_length (arr : list ChatHistory.t) :
  match generateObject arr with
  | Some result => length arr = (2 * length result)%nat
  | None => Nat.odd (length arr) = true
  end.
Proof.
  induction arr as [| x | x y l IH] using pair_induction.
  - reflexivity.
  - reflexivity.
  - cbn [generateObject]. destruct (generateObject l) as [result|].
    + cbn [length]. lia.
    + cbn [length]. rewrite Nat.odd_succ_succ. exact IH.
Qed.

(** X7.  The conversation view needs pairs.  [generateObject] returns a map
    exactly for an array of even length, with one entry per pair, each
    answer carrying the id, the reasoning followed by the content, and the
    stat of the second entry of its pair; on an array of odd length it
    throws. *)
Theorem generateObject_pairs (arr : list ChatHistory.t) :
  (generateObject arr = None <-> Nat.odd (length arr) = true) /\
  (forall result,
     generateObject arr = Some result ->
     length arr = (2 * length result)%nat /\
     forall n question answer,
       result !! n = Some (question, answer) ->
       exists user assistant,
         arr !! (2 * n)%nat = Some user /\
         arr !! (2 * n + 1)%nat = Some assistant /\
         Question.content question = ChatHistory.content user /\
         Question.images question = ChatHistory.images user /\
         Answer.id answer = ChatHistory.id assistant /\
         Answer.stat answer = ChatHistory.stat assistant /\
         Answer.content answer
           = ChatHistory.reasoning assistant +:+ ChatHistory.content assistant).
Proof.
  split.
  - pose proof (generateObject_length arr) as Hlen.
    destruct (generateObject arr) as [result|].
    + split; [discriminate|]. intros Hodd.
      rewrite Hlen, Nat.odd_mul in Hodd. discriminate.
    + split; auto.
  - induction arr as [| x | x y l IH] using pair_induction; intros result.
    + intros [= <-]. split; [reflexivity|]. intros n q a Hn. discriminate.
    + discriminate.
    + cbn [generateObject]. destruct (generateObject l) as [rest|]; [|discriminate].
      intros [= <-]. destruct (IH rest eq_refl) as [Hlen Hrest].
      split; [cbn [length]; lia|].
      intros [|n] q a Hn.
      * injection Hn as <- <-. exists x, y. repeat split; reflexivity.
      * destruct (Hrest n q a Hn) as (u & v & Hu & Hv & Hprops).
        exists u, v. split; [|split; [|exact Hprops]].
        -- replace (2 * S n)%nat with (S (S (2 * n))) by lia. exact Hu.
        -- replace (2 * S n + 1)%nat with (S (S (2 * n + 1))) by lia. exact Hv.
Qed.

Lemma generateObject_pairs_witness :
  exists result,
    generateObject Fixture.two_turns = Some result /\
    length Fixture.two_turns = (2 * length result)%nat /\
    generateObject (delete_chat_history Fixture.two_turns "u2") = None.
Proof.
  destruct (generateObject_pairs Fixture.two_turns) as [_ Hsome].
  destruct (generateObject_pairs (delete_chat_history Fixture.two_turns "u2"))
    as [Hnone _].
  eexists. split; [reflexivity|]. split.
  - apply Hsome. reflexivity.
  - apply Hnone. reflexivity.
Defined.

(** X8.  Deleting one entry breaks the pairing.  In a log with turn parity
    and pairwise distinct ids, deleting an id that an entry has leaves
    exactly one entry less, so a log of odd length without turn parity. *)
Theorem delete_chat_history_breaks_pairs (H : list ChatHistory.t) (i : string) :
  turn_parity H = true ->
  NoDup (map ChatHistory.id H) ->
  In i (map ChatHistory.id H) ->
  S (length (delete_chat_history H i)) = length H /\
  Nat.odd (length (delete_chat_history H i)) = true /\
  turn_parity (delete_chat_history H i) = false.
Proof.
  intros Hp Hnodup Hin.
  pose proof (delete_chat_history_length H i Hnodup Hin) as Hlen.
  pose proof (turn_parity_even H Hp) as Heven.
  assert (Hodd : Nat.odd (length (delete_chat_history H i)) = true).
  { rewrite <- Hlen, Nat.even_succ in Heven. exact Heven. }
  split; [exact Hlen|]. split; [exact Hodd|].
  destruct (turn_parity (delete_chat_history H i)) eqn:Hq; [|reflexivity].
  apply turn_parity_even in Hq. rewrite <- Nat.negb_odd, Hodd in Hq. discriminate.
Qed.

Lemma delete_chat_history_breaks_pairs_witness :
  S (length (delete_chat_history Fixture.two_turns "a1")) = length Fixture.two_turns
  /\ turn_parity (delete_chat_history Fixture.two_turns "a1") = false.
Proof.
  destruct (delete_chat_history_breaks_pairs Fixture.two_turns "a1")
    as (Hlen & _ & Hparity).
  - reflexivity.
  - vm_compute. repeat constructor; rewrite ?list_elem_of_In; simpl; intuition discriminate.
  - simpl. auto.
  - split; assumption.
Defined.

Lemma findIndex_spec (l : list ChatHistory.t) X index :
  findIndex (has_id X) l = Some index ->
  (exists e, l !! index = Some e /\ ChatHistory.id e = X) /\
  (forall j e, (j < index)%nat -> l !! j = Some e -> ChatHistory.id e <> X).
Proof.
  revert index. induction l as [|x l IH]; intros index; simpl; [discriminate|].
  unfold has_id at 1.
  destruct (String.eqb_spec (ChatHistory.id x) X) as [Heq|Hne].
  - intros [= <-]. split; [exists x; auto|]. intros j e Hj. lia.
  - destruct (findIndex (has_id X) l) as [i|]; simpl; [|discriminate].
    intros [= <-]. destruct (IH i eq_refl) as [Hat Hbefore].
    split; [exact Hat|].
    intros [|j] e Hj; simpl; [intros [= <-]; exact Hne|].
    apply Hbefore. lia.
Qed.

Lemma findIndex_insert_same (l : list ChatHistory.t) X index history :
  findIndex (has_id X) l = Some index ->
  ChatHistory.id history = X ->
  findIndex (has_id X) (<[index:=history]> l) = Some index.
Proof.
  intros Hfind Hid. revert index Hfind.
  induction l as [|x l IH]; intros index; simpl; [discriminate|].
  unfold has_id at 1.
  destruct (String.eqb_spec (ChatHistory.id x) X) as [Heq|Hne].
  - intros [= <-]. simpl. unfold has_id. rewrite Hid, String.eqb_refl. reflexivity.
  - destruct (findIndex (has_id X) l) as [i|] eqn:Hl; simpl; [|discriminate].
    intros [= <-]. simpl. unfold has_id at 1.
    apply String.eqb_neq in Hne. rewrite Hne, (IH i eq_refl). reflexivity.
Qed.

(** X9.  [set_chat_history] writes the given entry over the first entry
    with the id and touches nothing else: the length and every other
    position are as before, later entries with the same id included.  The
    id of the entry written is not compared with the id searched for; when
    it is that id, a second correction overwrites the first. *)
Theorem set_chat_history_first_match
    (H : list ChatHistory.t) (i : string) (history : ChatHistory.t) index :
  findIndex (has_id i) H = Some index ->
  length (set_chat_history H i history) = length H /\
  set_chat_history H i history !! index = Some history /\
  (forall j, j <> index -> set_chat_history H i history !! j = H !! j) /\
  (forall j e, (j < index)%nat -> H !! j = Some e -> ChatHistory.id e <> i) /\
  (ChatHistory.id history = i ->
   forall again,
     set_chat_history (set_chat_history H i history) i again
     = set_chat_history H i again).
Proof.
  intros Hfind. unfold set_chat_history at 1 2 3. rewrite Hfind.
  pose proof (findIndex_Some_lt _ _ _ Hfind) as Hlt.
  destruct (findIndex_spec _ _ _ Hfind) as [_ Hbefore].
  split; [apply length_insert|].
  split; [apply list_lookup_insert_eq; exact Hlt|].
  split; [intros j Hj; apply list_lookup_insert_ne; auto|].
  split; [exact Hbefore|].
  intros Hid again.
  unfold set_chat_history.
  rewrite Hfind, (findIndex_insert_same _ _ _ _ Hfind Hid).
  apply list_insert_insert_eq.
Qed.

Lemma set_chat_history_first_match_witness :
  set_chat_history
    (set_chat_history Fixture.two_turns "a1" (Sample.stored "a1" "assistant" "hel"))
    "a1" (Sample.stored "a1" "assistant" "hello there")
  = set_chat_history Fixture.two_turns "a1" (Sample.stored "a1" "assistant" "hello there").
Proof.
  destruct (set_chat_history_first_match Fixture.two_turns "a1"
              (Sample.stored "a1" "assistant" "hel") 1%nat eq_refl)
    as (_ & _ & _ & _ & Hagain).
  apply Hagain. reflexivity.
Defined.

(** X10.  A turn that completes.  After a save without [regenerate_id] and
    within the budget, correcting the entry with the id of the assistant
    entry (an id no stored entry has and that is not the user entry's)
    leaves the stored log followed by the user entry and the corrected
    assistant entry: the placeholder content is replaced. *)
Theorem save_then_set_chat_history
    lang (H : list ChatHistory.t) new_id history historyRes final contextLength :
  Forall (fun e => ChatHistory.id e <> ChatHistory.id historyRes) H ->
  new_id <> ChatHistory.id historyRes ->
  str_length (ChatHistory.content history) <= Math_round_half contextLength ->
  set_chat_history
    (save_chat_history lang H new_id history historyRes contextLength None)
    (ChatHistory.id historyRes) final
  = H ++ [saved_user new_id history; final].
Proof.
  intros Hfresh Hne Hle.
  rewrite save_chat_history_candidates. unfold save_candidates.
  rewrite shift_while_tokens_within by exact Hle.
  unfold set_chat_history. rewrite <- app_assoc.
  change ([saved_user new_id history] ++ [saved_assistant lang historyRes])
    with ([saved_user new_id history] ++ saved_assistant lang historyRes :: []).
  rewrite app_assoc.
  rewrite findIndex_snoc.
  - rewrite <- (Nat.add_0_r (length (H ++ [saved_user new_id history]))).
    rewrite insert_app_r. simpl. rewrite <- app_assoc. reflexivity.
  - apply Forall_app. split; [exact Hfresh|].
    constructor; [|constructor]. simpl. exact Hne.
  - reflexivity.
Qed.

Lemma save_then_set_chat_history_witness :
  set_chat_history
    (save_chat_history Sample.lang Sample.hi_hello "u2"
       (Sample.entry "" "user" "more") (Sample.entry "a2" "assistant" "") 4096 None)
    "a2" (Sample.stored "a2" "assistant" "sure")
  = Sample.hi_hello ++ [saved_user "u2" (Sample.entry "" "user" "more");
                        Sample.stored "a2" "assistant" "sure"].
Proof.
  apply (save_then_set_chat_history Sample.lang Sample.hi_hello "u2"
           (Sample.entry "" "user" "more") (Sample.entry "a2" "assistant" "")
           (Sample.stored "a2" "assistant" "sure") 4096).
  - repeat constructor; simpl; discriminate.
  - discriminate.
  - vm_compute. discriminate.
Defined.

(** ** More on context assembly *)

Lemma Math_round_half_mono n1 n2 :
  n1 <= n2 -> Math_round_half n1 <= Math_round_half n2.
Proof. intros Hle. unfold Math_round_half. apply Z.div_le_mono; lia. Qed.

(** X11.  A history whose contents, with the current content, are within the
    budget is passed on whole. *)
Theorem build_chat_history_within_budget
    (H : list ChatHistory.t) (chatContext : ChatContext.t) (contextLength : Z) :
  str_length (ChatContext.content chatContext) + content_total H
    <= Math_round_half contextLength ->
  build_chat_history H chatContext contextLength
  = map project H ++ [Current chatContext].
Proof.
  intros Hfit.
  destruct (build_chat_history_drop H chatContext contextLength)
    as (k & _ & -> & _ & Hmin).
  destruct k as [|k]; [reflexivity|].
  specialize (Hmin 0%nat ltac:(lia)). change (drop 0 H) with H in Hmin. lia.
Qed.

Lemma build_chat_history_within_budget_witness :
  build_chat_history Sample.hi_hello (ChatContext.mk "user" "again" [] "") 4096
  = map project Sample.hi_hello ++ [Current (ChatContext.mk "user" "again" [] "")].
Proof.
  apply build_chat_history_within_budget. vm_compute. discriminate.
Defined.

(** X12.  A longer context length never drops more.  For
    [contextLength1 <= contextLength2], the context assembled with the
    first is a suffix of the context assembled with the second. *)
Theorem build_chat_history_monotone
    (H : list ChatHistory.t) (chatContext : ChatContext.t)
    (contextLength1 contextLength2 : Z) :
  contextLength1 <= contextLength2 ->
  exists j,
    build_chat_history H chatContext contextLength1
    = drop j (build_chat_history H chatContext contextLength2).
Proof.
  intros Hle. apply Math_round_half_mono in Hle.
  destruct (build_chat_history_drop H chatContext contextLength1)
    as (k1 & Hk1 & -> & Hstop1 & _).
  destruct (build_chat_history_drop H chatContext contextLength2)
    as (k2 & Hk2 & -> & _ & Hmin2).
  assert (Hk : (k2 <= k1)%nat).
  { destruct (Nat.le_gt_cases k2 k1) as [|Hgt]; [assumption|].
    specialize (Hmin2 k1 Hgt). destruct Hstop1 as [->|Hfit]; lia. }
  exists (k1 - k2)%nat.
  rewrite drop_app_le by (rewrite length_map, length_drop; lia).
  f_equal. rewrite <- skipn_map, <- skipn_map, drop_drop. f_equal. lia.
Qed.

Lemma build_chat_history_monotone_witness :
  exists j,
    build_chat_history Fixture.two_turns (ChatContext.mk "user" "again" [] "") 20
    = drop j (build_chat_history Fixture.two_turns
                (ChatContext.mk "user" "again" [] "") 30).
Proof.
  apply build_chat_history_monotone. lia.
Defined.

(** ** Documents of a conversation *)

Lemma readJsonFile_other `{Host} (fs : files) (written p text : string) :
  p <> written ->
  readJsonFile (write_file fs written text) p = readJsonFile fs p.
Proof.
  intros Hne. unfold readJsonFile, file_exists, read_file, write_file.
  rewrite lookup_insert_ne by congruence. reflexivity.
Qed.

Lemma readJsonFile_saved `{Host} (fs : files) (filePath : string) (data : json) :
  JSON_parse (JSON_stringify data) = Some data ->
  JSON_stringify data <> "" ->
  readJsonFile (saveJsonFile fs filePath data) filePath = data.
Proof.
  intros Hround Htext.
  apply (readJsonFile_parsed _ _ (JSON_stringify data));
    [apply lookup_write_file | exact Htext | exact Hround].
Qed.

(** X13.  What is saved is read back, and nothing else changes.  When
    [JSON.parse] reads back the (non-empty) text of a document, [read_chat]
    after [save_chat] and [read_history] after [save_history] return the
    document, and each save leaves every other file reading as before; so
    the history of a conversation does not change with its config, nor the
    config with the history, as long as the two paths differ. *)
Theorem save_read_round_trip `{Host} (fs : files) (uuid : string) (data : json) :
  JSON_parse (JSON_stringify data) = Some data ->
  JSON_stringify data <> "" ->
  read_chat (save_chat fs uuid data) uuid = data /\
  read_history (save_history fs uuid data) uuid = data /\
  (forall p, p <> getConfigFilePath uuid ->
     readJsonFile (save_chat fs uuid data) p = readJsonFile fs p) /\
  (forall p, p <> getHistoryFilePath uuid ->
     readJsonFile (save_history fs uuid data) p = readJsonFile fs p) /\
  (getConfigFilePath uuid <> getHistoryFilePath uuid ->
   read_history (save_chat fs uuid data) uuid = read_history fs uuid /\
   read_chat (save_history fs uuid data) uuid = read_chat fs uuid).
Proof.
  intros Hround Htext.
  split; [apply readJsonFile_saved; assumption|].
  split; [apply readJsonFile_saved; assumption|].
  split; [intros p Hp; apply readJsonFile_other; exact Hp|].
  split; [intros p Hp; apply readJsonFile_other; exact Hp|].
  intros Hne. split; apply readJsonFile_other; congruence.
Qed.

Lemma save_read_round_trip_witness :
  @read_chat Sample.host (@save_chat Sample.host Sample.disk "c4" Fixture.config) "c4"
  = Fixture.config
  /\ @read_chat Sample.host
       (@save_history Sample.host Fixture.disk "c1" (JArr [JStr "entry"])) "c1"
     = @read_chat Sample.host Fixture.disk "c1".
Proof.
  destruct (@save_read_round_trip Sample.host Sample.disk "c4" Fixture.config)
    as (Hchat & _); [vm_compute; reflexivity | vm_compute; discriminate |].
  destruct (@save_read_round_trip Sample.host Fixture.disk "c1" (JArr [JStr "entry"]))
    as (_ & _ & _ & _ & Hapart); [vm_compute; reflexivity | vm_compute; discriminate |].
  split; [exact Hchat|]. apply Hapart. vm_compute. discriminate.
Defined.

Lemma obj_get_set_eq key v fields : obj_get key (obj_set key v fields) = Some v.
Proof.
  induction fields as [|[k w] fields IH]; simpl.
  - rewrite String.eqb_refl. reflexivity.
  - destruct (String.eqb k key) eqn:Hk; simpl; rewrite Hk; [reflexivity | exact IH].
Qed.

Lemma obj_get_set_ne key other v fields :
  other <> key -> obj_get other (obj_set key v fields) = obj_get other fields.
Proof.
  intros Hne. induction fields as [|[k w] fields IH]; simpl.
  - apply String.eqb_neq in Hne. rewrite String.eqb_sym, Hne. reflexivity.
  - destruct (String.eqb_spec k key) as [->|Hk]; simpl.
    + apply String.eqb_neq in Hne. rewrite String.eqb_sym, Hne. reflexivity.
    + destruct (String.eqb k other); [reflexivity | exact IH].
Qed.

Lemma obj_set_keys key v w fields :
  obj_get key fields = Some w -> map fst (obj_set key v fields) = map fst fields.
Proof.
  induction fields as [|[k u] fields IH]; simpl; [discriminate|].
  destruct (String.eqb k key); simpl; [reflexivity|].
  intros Hget. rewrite (IH Hget). reflexivity.
Qed.

Lemma obj_set_keys_length key v fields :
  Object_keys_length (JObj (obj_set key v fields)) <> Some 0%nat.
Proof.
  destruct fields as [|[k u] fields]; simpl; [discriminate|].
  destruct (String.eqb k key); discriminate.
Qed.

(** X14.  An update does not create a conversation.  When the config file
    is missing, empty or not a JSON text, [update_chat_title] and
    [update_chat_model] return [false] and write nothing. *)
Theorem update_chat_unreadable `{Host} (fs : files) (uuid : string) :
  unreadable fs (getConfigFilePath uuid) ->
  (forall title, update_chat_title fs uuid title = Some (fs, false)) /\
  (forall model parameters,
     update_chat_model fs uuid model parameters = Some (fs, false)).
Proof.
  intros Hbad. split.
  - intros title. unfold update_chat_title, read_chat.
    rewrite (readJsonFile_unreadable _ _ Hbad). reflexivity.
  - intros model parameters. unfold update_chat_model.
    rewrite (readJsonFile_unreadable _ _ Hbad). reflexivity.
Qed.

Lemma update_chat_unreadable_witness :
  @update_chat_title Sample.host Sample.disk "c4" "new title"
  = Some (Sample.disk, false)
  /\ @update_chat_model Sample.host Sample.disk "c3" "qwen" "14b"
     = Some (Sample.disk, false).
Proof.
  split.
  - apply (@update_chat_unreadable Sample.host Sample.disk "c4"). left. reflexivity.
  - apply (@update_chat_unreadable Sample.host Sample.disk "c3").
    right. right. exists "{". split; reflexivity.
Defined.

(** X15.  [update_chat_title] on a config object with at least one key
    returns [true]; when [JSON.parse] reads back the text of the updated
    object, [read_chat] then returns the object with the title set to the
    given string in full (no cut at 18 characters, unlike [create_chat]),
    every other property as it was, and no other file is written. *)
Theorem update_chat_title_object `{Host} (fs : files) (uuid title : string)
    (fields : list (string * json)) :
  read_chat fs uuid = JObj fields ->
  fields <> [] ->
  JSON_parse (JSON_stringify (JObj (obj_set "title" (JStr title) fields)))
    = Some (JObj (obj_set "title" (JStr title) fields)) ->
  JSON_stringify (JObj (obj_set "title" (JStr title) fields)) <> "" ->
  exists fs',
    update_chat_title fs uuid title = Some (fs', true) /\
    read_chat fs' uuid = JObj (obj_set "title" (JStr title) fields) /\
    get_prop "title" (read_chat fs' uuid) = Some (JStr title) /\
    (forall key, key <> "title" ->
       get_prop key (read_chat fs' uuid) = obj_get key fields) /\
    (forall p, p <> getConfigFilePath uuid -> fs' !! p = fs !! p).
Proof.
  intros Hread Hfields Hround Htext.
  exists (save_chat fs uuid (JObj (obj_set "title" (JStr title) fields))).
  assert (Hafter : read_chat
                     (save_chat fs uuid (JObj (obj_set "title" (JStr title) fields)))
                     uuid
                   = JObj (obj_set "title" (JStr title) fields))
    by (apply readJsonFile_saved; assumption).
  split.
  - unfold update_chat_title. rewrite Hread.
    destruct fields as [|field fields]; [congruence | reflexivity].
  - rewrite Hafter. split; [reflexivity|]. split; [apply obj_get_set_eq|].
    split; [intros key Hkey; apply obj_get_set_ne; exact Hkey|].
    intros p Hp. unfold save_chat, saveJsonFile, write_file.
    apply lookup_insert_ne. congruence.
Qed.

Lemma update_chat_title_object_witness :
  exists fs',
    @update_chat_title Sample.host Fixture.disk "c1"
      "a title far longer than eighteen characters" = Some (fs', true) /\
    get_prop "title" (@read_chat Sample.host fs' "c1")
    = Some (JStr "a title far longer than eighteen characters").
Proof.
  destruct (@update_chat_title_object Sample.host Fixture.disk "c1"
              "a title far longer than eighteen characters"
              [("model", JStr "llama"); ("title", JStr "first words");
               ("parameters", JStr "7b"); ("contextPath", JStr "/data/context/c1");
               ("context_id", JStr "c1"); ("create_time", JNum 100)])
    as (fs' & Hupdate & _ & Htitle & _).
  - vm_compute. reflexivity.
  - discriminate.
  - vm_compute. reflexivity.
  - vm_compute. discriminate.
  - exists fs'. split; assumption.
Defined.

(** X16.  [update_chat_model] on a config object with at least one key
    returns [true]; when [JSON.parse] reads back the text of the updated
    object, [read_chat] then returns the object with [model] and
    [parameters] set, every other property (the title among them) as it
    was, and no other file is written. *)
Theorem update_chat_model_object `{Host} (fs : files) (uuid model parameters : string)
    (fields : list (string * json)) :
  readJsonFile fs (getConfigFilePath uuid) = JObj fields ->
  fields <> [] ->
  let updated :=
    JObj (obj_set "parameters" (JStr parameters) (obj_set "model" (JStr model) fields)) in
  JSON_parse (JSON_stringify updated) = Some updated ->
  JSON_stringify updated <> "" ->
  exists fs',
    update_chat_model fs uuid model parameters = Some (fs', true) /\
    read_chat fs' uuid = updated /\
    get_prop "model" (read_chat fs' uuid) = Some (JStr model) /\
    get_prop "parameters" (read_chat fs' uuid) = Some (JStr parameters) /\
    (forall key, key <> "model" -> key <> "parameters" ->
       get_prop key (read_chat fs' uuid) = obj_get key fields) /\
    (forall p, p <> getConfigFilePath uuid -> fs' !! p = fs !! p).
Proof.
  intros Hread Hfields updated Hround Htext.
  exists (saveJsonFile fs (getConfigFilePath uuid) updated).
  assert (Hafter : read_chat (saveJsonFile fs (getConfigFilePath uuid) updated) uuid
                   = updated)
    by (apply readJsonFile_saved; assumption).
  split.
  - unfold update_chat_model. rewrite Hread.
    destruct fields as [|field fields]; [congruence | reflexivity].
  - rewrite Hafter. split; [reflexivity|]. subst updated. simpl.
    split; [rewrite obj_get_set_ne by discriminate; apply obj_get_set_eq|].
    split; [apply obj_get_set_eq|].
    split.
    + intros key Hmodel Hparameters.
      rewrite obj_get_set_ne by exact Hparameters.
      apply obj_get_set_ne. exact Hmodel.
    + intros p Hp. unfold saveJsonFile, write_file.
      apply lookup_insert_ne. congruence.
Qed.

Lemma update_chat_model_object_witness :
  exists fs',
    @update_chat_model Sample.host Fixture.disk "c1" "qwen" "14b" = Some (fs', true) /\
    get_prop "model" (@read_chat Sample.host fs' "c1") = Some (JStr "qwen") /\
    get_prop "title" (@read_chat Sample.host fs' "c1") = Some (JStr "first words").
Proof.
  destruct (@update_chat_model_object Sample.host Fixture.disk "c1" "qwen" "14b"
              [("model", JStr "llama"); ("title", JStr "first words");
               ("parameters", JStr "7b"); ("contextPath", JStr "/data/context/c1");
               ("context_id", JStr "c1"); ("create_time", JNum 100)])
    as (fs' & Hupdate & _ & Hmodel & _ & Hother & _).
  - vm_compute. reflexivity.
  - discriminate.
  - vm_compute. reflexivity.
  - vm_compute. discriminate.
  - exists fs'. split; [exact Hupdate|]. split; [exact Hmodel|].
    rewrite Hother by discriminate. reflexivity.
Defined.

Lemma collect_chat_list_throws `{Host} (fs : files) (dirs : list string) dir :
  In dir dirs -> chat_list_entry fs dir = None -> collect_chat_list fs dirs = None.
Proof.
  intros Hin Hthrow. induction dirs as [|d dirs IH]; simpl; [contradiction|].
  destruct Hin as [->|Hin]; [rewrite Hthrow; reflexivity|].
  rewrite (IH Hin). destruct (chat_list_entry fs d); reflexivity.
Qed.

(** X17.  A config file that holds the JSON value [null] is not tolerated:
    [Object.keys(null)] throws, so [update_chat_title] and
    [update_chat_model] throw on that conversation, and [get_chat_list]
    throws for the whole list as soon as one listed directory has such a
    config. *)
Theorem null_config_throws `{Host} (fs : files) :
  (forall uuid,
     read_chat fs uuid = JNull ->
     (forall title, update_chat_title fs uuid title = None) /\
     (forall model parameters, update_chat_model fs uuid model parameters = None)) /\
  (forall dir,
     In dir (readdir (getContextPath "")) ->
     readJsonFile fs (path_resolve dir "config.json") = JNull ->
     get_chat_list fs = None).
Proof.
  split.
  - intros uuid Hnull. split.
    + intros title. unfold update_chat_title. rewrite Hnull. reflexivity.
    + intros model parameters. unfold update_chat_model.
      unfold read_chat in Hnull. rewrite Hnull. reflexivity.
  - intros dir Hdir Hnull. unfold get_chat_list.
    rewrite (collect_chat_list_throws fs _ dir Hdir); [reflexivity|].
    unfold chat_list_entry. rewrite Hnull. reflexivity.
Qed.

Lemma null_config_throws_witness :
  @update_chat_title Sample.host Fixture.disk "c2" "new title" = None
  /\ @get_chat_list Sample.host Fixture.disk = None.
Proof.
  destruct (@null_config_throws Sample.host Fixture.disk) as [Hupdate Hlist].
  split.
  - apply Hupdate. vm_compute. reflexivity.
  - apply (Hlist "/data/context/c2"); [simpl; auto | vm_compute; reflexivity].
Defined.

Lemma get_chat_list_documents `{Host} (fs : files) :
  Forall (fun dir =>
            config_document (readJsonFile fs (path_resolve dir "config.json")) = true)
    (readdir (getContextPath "")) ->
  get_chat_list fs = Some (sort_desc (listed_configs fs (readdir (getContextPath "")))).
Proof.
  intros Hdocs. unfold get_chat_list.
  rewrite (collect_chat_list_documents _ _ Hdocs).
  replace (forallb _ _) with true; [reflexivity|].
  symmetry. apply forallb_forall. intros cfg Hin.
  pose proof (listed_configs_numeric _ _ Hdocs) as Hnum.
  rewrite List.Forall_forall in Hnum. destruct (Hnum cfg Hin) as [n Hn].
  rewrite Hn. apply bool_decide_eq_true_2. eauto.
Qed.

(** X18.  A created conversation is listed.  When the directory of the new
    conversation is among the listed directories, [JSON.parse] reads back
    the text of the created config, and every listed config file holds a
    config document afterwards, [get_chat_list] on the store [create_chat]
    leaves returns a list that holds the created config, with the creation
    time [create_chat] gave it. *)
Theorem create_chat_listed `{Host} (fs : files) (uuid : string) (now : Z)
    (model parameters title : string) :
  let created := create_chat fs uuid now model parameters title in
  In (getContextPath uuid) (readdir (getContextPath "")) ->
  JSON_parse (JSON_stringify created.2) = Some created.2 ->
  JSON_stringify created.2 <> "" ->
  Forall (fun dir =>
            config_document
              (readJsonFile created.1 (path_resolve dir "config.json")) = true)
    (readdir (getContextPath "")) ->
  exists contextList,
    get_chat_list created.1 = Some contextList /\
    In created.2 contextList /\
    create_time_of created.2 = Some now.
Proof.
  intros created Hdir Hround Htext Hdocs.
  exists (sort_desc (listed_configs created.1 (readdir (getContextPath "")))).
  split; [apply get_chat_list_documents; exact Hdocs|].
  split; [|reflexivity].
  apply (Permutation_in _ (Permutation_sym (sort_desc_perm _))).
  assert (Hread : readJsonFile created.1 (path_resolve (getContextPath uuid) "config.json")
                  = created.2).
  { apply (readJsonFile_parsed _ _ (JSON_stringify created.2));
      [apply lookup_write_file | exact Htext | exact Hround]. }
  unfold listed_configs. apply in_map_iff. exists (getContextPath uuid). split.
  - rewrite Hread. reflexivity.
  - apply filter_In. split; [exact Hdir|]. rewrite Hread. reflexivity.
Qed.

Lemma create_chat_listed_witness :
  exists contextList,
    @get_chat_list Sample.host
      (@create_chat Sample.host Sample.disk "c4" 300 "llama" "7b" "hello").1
    = Some contextList /\
    In (@create_chat Sample.host Sample.disk "c4" 300 "llama" "7b" "hello").2
       contextList.
Proof.
  destruct (@create_chat_listed Sample.host Sample.disk "c4" 300 "llama" "7b" "hello")
    as (contextList & Hlist & Hin & _).
  - simpl. auto 10.
  - vm_compute. reflexivity.
  - vm_compute. discriminate.
  - repeat constructor.
  - exists contextList. split; assumption.
Defined.

(** X19.  A current message longer than the budget goes alone.  When the
    current user content by itself exceeds [Math.round(contextLength * 0.5)],
    every stored entry is dropped and the assembled context is the current
    turn only. *)
Theorem build_chat_history_current_only
    (H : list ChatHistory.t) (chatContext : ChatContext.t) (contextLength : Z) :
  Math_round_half contextLength < str_length (ChatContext.content chatContext) ->
  build_chat_history H chatContext contextLength = [Current chatContext].
Proof.
  intros Hlong.
  destruct (build_chat_history_drop H chatContext contextLength)
    as (k & Hk & -> & Hstop & _).
  pose proof (content_total_nonneg (drop k H)) as Hnonneg.
  destruct Hstop as [->|Hfit]; [|lia].
  rewrite drop_all. reflexivity.
Qed.

Lemma build_chat_history_current_only_witness :
  build_chat_history Fixture.two_turns
    (ChatContext.mk "user" "0123456789" [] "") 4
  = [Current (ChatContext.mk "user" "0123456789" [] "")].
Proof.
  apply build_chat_history_current_only. vm_compute. reflexivity.
Defined.

(** ** An aborted stream *)





